(** * twenty_migration: a shallow embedding of the reconciliation scripts

    The repository holds three Python scripts that talk to a Twenty CRM
    instance over REST:
    - [src/main.py]                 CSV bootstrap: slugify, type inference,
                                    field creation, record upsert;
    - [src/apply_twenty_schema.py]  declarative schema reconciliation;
    - [src/delete_twenty_object.py] guarded deactivation / deletion.

    Python values are embedded as follows.
    - [str] is [string]; text processing goes through [list ascii].  The
      character predicates are the ASCII ones: a character above 127 is
      neither a letter, a digit nor white space, and [lower] leaves it
      alone.  Python agrees on ASCII text; it differs on the code points
      whose lower case holds an ASCII letter (U+0130, U+212A) and on the
      digits and spaces outside ASCII that [float] accepts.
    - JSON-like values ([Dict[str, Any]], lists, scalars) are [json]; a
      dictionary is an association list read at its first binding, a float
      is carried by the text Python prints for it.
    - An exception is a value of [exn]; a function that may raise returns a
      [result].
    - The HTTP session is a handler [request -> S -> response * S] over an
      arbitrary server state [S]; every call is appended to a log. *)

From Stdlib Require Import Bool Arith ZArith List Ascii String Lia.
From Stdlib Require Import Numbers.DecimalString.
From Stdlib Require Import Permutation.
Import ListNotations.

Local Open Scope string_scope.
Local Open Scope list_scope.

(* ================================================================= *)
(** * Text *)

Module Text.

Definition chars := list ascii.

Definition code (c : ascii) : nat := nat_of_ascii c.

Definition between (lo hi : nat) (c : ascii) : bool :=
  Nat.leb lo (code c) && Nat.leb (code c) hi.

Definition is_digit : ascii -> bool := between 48 57.
Definition is_lower : ascii -> bool := between 97 122.
Definition is_upper : ascii -> bool := between 65 90.
Definition is_alpha (c : ascii) : bool := is_lower c || is_upper c.
Definition is_underscore (c : ascii) : bool := Ascii.eqb c "_".

(** White space as [str.strip()] sees it below 128: TAB..CR, FS..US, SPACE. *)
Definition is_space (c : ascii) : bool :=
  between 9 13 c || between 28 31 c || Nat.eqb (code c) 32.

Definition to_lower (c : ascii) : ascii :=
  if is_upper c then ascii_of_nat (code c + 32) else c.

Definition to_upper (c : ascii) : ascii :=
  if is_lower c then ascii_of_nat (code c - 32) else c.

(** [str.lower()] *)
Definition lower (s : chars) : chars := map to_lower s.

(** [str.lstrip], [str.rstrip], [str.strip] for a class of characters. *)
Fixpoint lstrip (p : ascii -> bool) (s : chars) : chars :=
  match s with
  | [] => []
  | c :: s' => if p c then lstrip p s' else s
  end.

Fixpoint rstrip (p : ascii -> bool) (s : chars) : chars :=
  match s with
  | [] => []
  | c :: s' =>
      match rstrip p s' with
      | [] => if p c then [] else [c]
      | r => c :: r
      end
  end.

Definition strip (p : ascii -> bool) (s : chars) : chars :=
  rstrip p (lstrip p s).

(** [re.sub(r"[class]+", "_", s)]: every maximal run of characters of the
    class is replaced by one underscore.  [in_run] tells that the previous
    character belonged to the run being replaced. *)
Fixpoint re_sub_runs (p : ascii -> bool) (in_run : bool) (s : chars) : chars :=
  match s with
  | [] => []
  | c :: s' =>
      if p c
      then (if in_run then re_sub_runs p true s'
            else "_"%char :: re_sub_runs p true s')
      else c :: re_sub_runs p false s'
  end.

(** [str.split(sep)] for a one-character separator: never empty. *)
Fixpoint split (sep : ascii) (s : chars) : list chars :=
  match s with
  | [] => [[]]
  | c :: s' =>
      if Ascii.eqb c sep then [] :: split sep s'
      else match split sep s' with
           | [] => [[c]]
           | w :: ws => (c :: w) :: ws
           end
  end.

(** [str.title()]: a letter is upper-cased when the character before it is
    not a letter, lower-cased otherwise. *)
Fixpoint title_from (prev_cased : bool) (s : chars) : chars :=
  match s with
  | [] => []
  | c :: s' =>
      if is_alpha c
      then (if prev_cased then to_lower c else to_upper c) :: title_from true s'
      else c :: title_from false s'
  end.

Definition title (s : chars) : chars := title_from false s.

(** ['_' in s] *)
Definition has_underscore (s : chars) : bool := existsb is_underscore s.

Definition of_string : string -> chars := list_ascii_of_string.
Definition to_string : chars -> string := string_of_list_ascii.

(** ** The grammar accepted by [float(str)] *)

Definition is_sign (c : ascii) : bool := Ascii.eqb c "+" || Ascii.eqb c "-".
Definition is_exp (c : ascii) : bool := Ascii.eqb c "e" || Ascii.eqb c "E".
Definition is_dot (c : ascii) : bool := Ascii.eqb c ".".

Definition skip_sign (s : chars) : chars :=
  match s with
  | c :: s' => if is_sign c then s' else s
  | [] => []
  end.

(** After a digit: [(["_"] digit)*]; returns what is left. *)
Fixpoint digits_rest (s : chars) : chars :=
  match s with
  | [] => []
  | c :: s' =>
      if is_digit c then digits_rest s'
      else if is_underscore c then
        match s' with
        | d :: s'' => if is_digit d then digits_rest s'' else s
        | [] => s
        end
      else s
  end.

(** [digitpart ::= digit (["_"] digit)*] *)
Definition digitpart (s : chars) : option chars :=
  match s with
  | c :: s' => if is_digit c then Some (digits_rest s') else None
  | [] => None
  end.

(** [number ::= [digitpart] "." digitpart | digitpart ["."]] *)
Definition number (s : chars) : option chars :=
  match digitpart s with
  | Some r =>
      match r with
      | c :: r' =>
          if is_dot c
          then match digitpart r' with Some r'' => Some r'' | None => Some r' end
          else Some r
      | [] => Some r
      end
  | None =>
      match s with
      | c :: r' => if is_dot c then digitpart r' else None
      | [] => None
      end
  end.

(** [exponent ::= ("e" | "E") [sign] digitpart], optional. *)
Definition exponent_opt (s : chars) : option chars :=
  match s with
  | c :: s' => if is_exp c then digitpart (skip_sign s') else Some s
  | [] => Some []
  end.

Definition floatnumber (s : chars) : bool :=
  match number s with
  | Some r => match exponent_opt r with Some [] => true | _ => false end
  | None => false
  end.

Definition special_floats : list string := ["inf"; "infinity"; "nan"].

(** [float(s)] does not raise [ValueError]. *)
Definition float_parses (s : string) : bool :=
  let body := skip_sign (strip is_space (of_string s)) in
  existsb (String.eqb (to_string (lower body))) special_floats
  || floatnumber body.

(** ** What a slug looks like *)

Definition slug_char (c : ascii) : bool :=
  is_lower c || is_digit c || is_underscore c.

Fixpoint no_double_underscore (s : chars) : bool :=
  match s with
  | [] => true
  | c :: s' =>
      match s' with
      | d :: _ => negb (is_underscore c && is_underscore d)
      | [] => true
      end && no_double_underscore s'
  end.

Definition starts_with (p : ascii -> bool) (s : chars) : bool :=
  match s with c :: _ => p c | [] => false end.

Definition ends_with (p : ascii -> bool) (s : chars) : bool :=
  starts_with p (rev s).

End Text.

(* ================================================================= *)
(** * Python values *)

(** Scalars.  A float is carried by the text Python's [repr] prints for it
    (["2.5"], ["1e+16"], ["inf"], ["nan"]), which is all these scripts look at. *)
Inductive scalar : Type :=
| SNone
| SBool (b : bool)
| SInt (n : Z)
| SFloat (repr : string)
| SStr (s : string).

#[local] Unset Elimination Schemes.
Inductive json : Type :=
| JAtom (a : scalar)
| JList (items : list json)
| JDict (entries : list (string * json)).
#[local] Set Elimination Schemes.

Abbreviation JNull := (JAtom SNone).
Abbreviation JBool b := (JAtom (SBool b)).
Abbreviation JInt n := (JAtom (SInt n)).
Abbreviation JStr s := (JAtom (SStr s)).

Definition dict := list (string * json).

(* ================================================================= *)
(** * Requests, responses, exceptions *)

Inductive http_method : Type := GET | POST | PATCH | DELETE.

(** The paths the scripts format, kept structured:
    [/rest/metadata/objects], [/rest/metadata/objects/{id}],
    [/rest/metadata/fields], [/rest/{name_plural}],
    [/rest/{name_plural}/{record_id}]. *)
Inductive endpoint : Type :=
| MetadataObjects
| MetadataObject (id : json)
| MetadataFields
| Records (name_plural : string)
| Record (name_plural : string) (record_id : json).

Record request : Type := mkRequest {
  method : http_method;
  target : endpoint;
  params : dict;            (* the [params=] keyword, [[]] when absent *)
  body : option json        (* the [json=] keyword *)
}.

(** What [S.request] gives back: a reply with a status code and a text that
    is blank, JSON, or something [r.json()] rejects; or no reply at all
    (time-out, connection error). *)
Inductive reply_text : Type :=
| Blank
| Json (v : json)
| NotJson.

Inductive response : Type :=
| Reply (status_code : Z) (text : reply_text)
| NoReply.

(** The exceptions these scripts raise or let through.  [HttpError] is the
    [RuntimeError] raised by [http] on a status of 400 or more; it carries
    the method, the path and the status. *)
Inductive exn : Type :=
| ValueError (msg : string)
| KeyError (key : string)
| IndexError
| TypeError
| AttributeError
| RuntimeError (msg : string)
| HttpError (m : http_method) (path : endpoint) (status : Z)
| JSONDecodeError
| RequestException.

(** [except RuntimeError] *)
Definition is_runtime_error (e : exn) : bool :=
  match e with
  | RuntimeError _ | HttpError _ _ _ => true
  | _ => false
  end.

Inductive result (A : Type) : Type :=
| OK (a : A)
| Raise (e : exn).

Arguments OK {A} a.
Arguments Raise {A} e.

Definition rbind {A B : Type} (r : result A) (k : A -> result B) : result B :=
  match r with
  | OK a => k a
  | Raise e => Raise e
  end.

Module Py.

(** [str(x)] on a scalar. *)
Definition str (a : scalar) : string :=
  match a with
  | SNone => "None"
  | SBool true => "True"
  | SBool false => "False"
  | SInt n => NilEmpty.string_of_int (Z.to_int n)
  | SFloat r => r
  | SStr s => s
  end.

(** Truth value of a scalar ([bool(x)]). *)
Definition truthy_scalar (a : scalar) : bool :=
  match a with
  | SNone => false
  | SBool b => b
  | SInt n => negb (Z.eqb n 0)
  | SFloat r => negb (String.eqb r "0.0" || String.eqb r "-0.0")
  | SStr s => negb (String.eqb s "")
  end.

Definition truthy (v : json) : bool :=
  match v with
  | JAtom a => truthy_scalar a
  | JList l => match l with [] => false | _ => true end
  | JDict d => match d with [] => false | _ => true end
  end.

(** [a == b] on scalars: [True == 1] and [False == 0] hold; a float is
    compared through its printed form, the two zeros being equal, and is
    taken to differ from every integer (identifiers and names are not
    floats). *)
Definition int_of_bool (b : bool) : Z := if b then 1%Z else 0%Z.

Definition is_zero_repr (r : string) : bool :=
  String.eqb r "0.0" || String.eqb r "-0.0".

Definition eq_scalar (a b : scalar) : bool :=
  match a, b with
  | SNone, SNone => true
  | SBool x, SBool y => Bool.eqb x y
  | SBool x, SInt n | SInt n, SBool x => Z.eqb n (int_of_bool x)
  | SInt n, SInt m => Z.eqb n m
  | SFloat r, SFloat r' => String.eqb r r' || (is_zero_repr r && is_zero_repr r')
  | SStr s, SStr t => String.eqb s t
  | _, _ => false
  end.

(** [a == b] on values: lists element by element, dictionaries binding by
    binding in the order written. *)
Fixpoint eq (a b : json) {struct a} : bool :=
  match a, b with
  | JAtom x, JAtom y => eq_scalar x y
  | JList l, JList m =>
      (fix eq_items (l m : list json) {struct l} : bool :=
         match l, m with
         | [], [] => true
         | x :: l', y :: m' => eq x y && eq_items l' m'
         | _, _ => false
         end) l m
  | JDict d, JDict e =>
      (fix eq_entries (d e : list (string * json)) {struct d} : bool :=
         match d, e with
         | [], [] => true
         | (k, x) :: d', (k', y) :: e' =>
             String.eqb k k' && eq x y && eq_entries d' e'
         | _, _ => false
         end) d e
  | _, _ => false
  end.

(** [key in d] and [d.get(key)] on the entries of a dictionary. *)
Fixpoint lookup (key : string) (d : dict) : option json :=
  match d with
  | [] => None
  | (k, v) :: d' => if String.eqb k key then Some v else lookup key d'
  end.

Definition has_key (key : string) (d : dict) : bool :=
  match lookup key d with Some _ => true | None => false end.

(** [{k: v for k, v in d.items() if k != key}] *)
Definition without (key : string) (d : dict) : dict :=
  filter (fun kv => negb (String.eqb (fst kv) key)) d.

Definition is_list (v : json) : bool :=
  match v with JList _ => true | _ => false end.

Definition is_dict (v : json) : bool :=
  match v with JDict _ => true | _ => false end.

(** Hashable values: the scalars. *)
Definition hashable (v : json) : bool :=
  match v with JAtom _ => true | _ => false end.

(** [x in names] for a set of hashable values. *)
Definition mem (x : json) (names : list json) : bool := existsb (eq x) names.

(** [v.get(key, default)]: only a dictionary has [get]. *)
Definition get (v : json) (key : string) (default : json) : result json :=
  match v with
  | JDict d => OK (match lookup key d with Some x => x | None => default end)
  | _ => Raise AttributeError
  end.

(** [v[key]] for a string key. *)
Definition getitem (v : json) (key : string) : result json :=
  match v with
  | JDict d =>
      match lookup key d with
      | Some x => OK x
      | None => Raise (KeyError key)
      end
  | _ => Raise TypeError
  end.


(** [for x in v]: the elements of a list, the keys of a dictionary, the
    characters of a string. *)
Definition iter (v : json) : result (list json) :=
  match v with
  | JList l => OK l
  | JDict d => OK (map (fun kv => JStr (fst kv)) d)
  | JStr s => OK (map (fun c => JStr (String c "")) (list_ascii_of_string s))
  | _ => Raise TypeError
  end.

(** ['_' in v] *)
Definition contains_underscore (v : json) : result bool :=
  match v with
  | JStr s => OK (Text.has_underscore (Text.of_string s))
  | JList l => OK (existsb (fun x => eq x (JStr "_")) l)
  | JDict d => OK (has_key "_" d)
  | _ => Raise TypeError
  end.

(** [{f(x) for x in xs}]: every element must be hashable. *)
Fixpoint make_set (xs : list json) : result (list json) :=
  match xs with
  | [] => OK []
  | x :: xs' =>
      if hashable x
      then rbind (make_set xs') (fun s => OK (x :: s))
      else Raise TypeError
  end.

(** [x in s] for a set [s]: [x] is hashed first. *)
Definition in_set (x : json) (s : list json) : result bool :=
  if hashable x then OK (mem x s) else Raise TypeError.

(** [sorted(s)] for a set [s] of scalars does not raise: its elements are
    comparable when all are numbers or all are strings; [None] compares
    with nothing, and a set holds it once. *)
Definition is_none (v : json) : bool :=
  match v with JNull => true | _ => false end.

Definition is_number (v : json) : bool :=
  match v with
  | JAtom (SBool _) | JAtom (SInt _) | JAtom (SFloat _) => true
  | _ => false
  end.

Definition is_str (v : json) : bool :=
  match v with JStr _ => true | _ => false end.

Definition sortable (s : list json) : bool :=
  forallb is_none s || forallb is_number s || forallb is_str s.

End Py.

(* ================================================================= *)
(** * The session: state, log and exceptions *)

(** The world a script runs in: the server behind the session and the
    calls issued so far, oldest first. *)
Record world (S : Type) : Type := mkWorld {
  server : S;
  calls : list request
}.

Arguments mkWorld {S} server calls.
Arguments server {S} w.
Arguments calls {S} w.

Definition M (S A : Type) : Type := world S -> result A * world S.

Definition ret {S A : Type} (a : A) : M S A := fun w => (OK a, w).

Definition raise {S A : Type} (e : exn) : M S A := fun w => (Raise e, w).

Definition bind {S A B : Type} (m : M S A) (k : A -> M S B) : M S B :=
  fun w =>
    match m w with
    | (OK a, w') => k a w'
    | (Raise e, w') => (Raise e, w')
    end.

Definition lift {S A : Type} (r : result A) : M S A := fun w => (r, w).

(** [try: m / except RuntimeError: handler] *)
Definition try_except_runtime {S A : Type} (m : M S A) (handler : M S A) : M S A :=
  fun w =>
    match m w with
    | (Raise e, w') => if is_runtime_error e then handler w' else (Raise e, w')
    | done => done
    end.

Declare Scope py_scope.
Delimit Scope py_scope with py.
Notation "x <- m ;; k" := (bind m (fun x => k))
  (at level 61, m at next level, right associativity) : py_scope.
Notation "m ;; k" := (bind m (fun _ => k))
  (at level 61, right associativity) : py_scope.
Notation "x <~ r ;; k" := (rbind r (fun x => k))
  (at level 61, r at next level, right associativity) : py_scope.

Local Open Scope py_scope.

(** [for x in xs: body(x)] *)
Fixpoint for_each {S A : Type} (xs : list A) (body : A -> M S unit) : M S unit :=
  match xs with
  | [] => ret tt
  | x :: xs' => body x ;; for_each xs' body
  end.

Section Session.

Context {S : Type}.
Variable handle : request -> S -> response * S.

(** [http(method, path, **kwargs)]: the three scripts share it (the debug
    prints of apply_twenty_schema.py apart). *)
Definition http (m : http_method) (path : endpoint) (params : dict)
    (body : option json) : M S json :=
  fun w =>
    let req := mkRequest m path params body in
    let (resp, s') := handle req (server w) in
    let w' := mkWorld s' (calls w ++ [req]) in
    match resp with
    | NoReply => (Raise RequestException, w')
    | Reply status text =>
        if (400 <=? status)%Z then (Raise (HttpError m path status), w')
        else match text with
             | Blank => (OK JNull, w')
             | Json v => (OK v, w')
             | NotJson => (Raise JSONDecodeError, w')
             end
    end.

End Session.

(** The first of [keys] bound to a list in [d]:
    [for k in keys: if k in d and isinstance(d[k], list): return d[k]]. *)
Fixpoint first_list_under (keys : list string) (d : dict) : option json :=
  match keys with
  | [] => None
  | k :: keys' =>
      match Py.lookup k d with
      | Some (JList l) => Some (JList l)
      | _ => first_list_under keys' d
      end
  end.

(** [{f.get("name") for f in fields}], as both [ensure_fields] and
    [apply_schema] build it. *)
Fixpoint field_names (fs : list json) : result (list json) :=
  match fs with
  | [] => OK []
  | f :: fs' =>
      n <~ Py.get f "name" JNull ;;
      if Py.hashable n
      then (ns <~ field_names fs' ;; OK (n :: ns))
      else Raise TypeError
  end.

(** The payload shapes [list_objects] accepts (apply_twenty_schema.py and
    delete_twenty_object.py have the same function). *)
Definition objects_payload (res : json) : result json :=
  data <~ Py.get res "data" res ;;
  match data with
  | JDict d =>
      match Py.lookup "objects" d with
      | Some objects => OK objects
      | None => Raise (RuntimeError "Unexpected objects payload")
      end
  | JList _ => OK data
  | _ => Raise (RuntimeError "Unexpected objects payload")
  end.

(** [for o in objects: if o.get("nameSingular") == name: return o] and
    [return None] after the loop. *)
Fixpoint first_named (name : json) (objects : list json) : result json :=
  match objects with
  | [] => OK JNull
  | o :: objects' =>
      v <~ Py.get o "nameSingular" JNull ;;
      if Py.eq v name then OK o else first_named name objects'
  end.

(* ================================================================= *)
(** * src/main.py *)

Module Main.

(** [slugify(s)] *)
Definition not_slug_char (c : ascii) : bool :=
  negb (Text.is_lower c || Text.is_digit c).

Definition slugify (s : string) : result string :=
  let s1 := Text.lower (Text.strip Text.is_space (Text.of_string s)) in
  let s2 := Text.re_sub_runs not_slug_char false s1 in
  let s3 := Text.strip Text.is_underscore
              (Text.re_sub_runs Text.is_underscore false s2) in
  match s3 with
  | [] => Raise (ValueError "Cannot slugify empty string")
  | c :: _ =>
      if Text.is_digit c
      then OK (Text.to_string ("f"%char :: "_"%char :: s3))
      else OK (Text.to_string s3)
  end.

(** ** Type inference *)

Inductive inferred_type : Type := TEXT | BOOLEAN | NUMBER.

Definition type_name (t : inferred_type) : string :=
  match t with
  | TEXT => "TEXT"
  | BOOLEAN => "BOOLEAN"
  | NUMBER => "NUMBER"
  end.

(** A column of a data frame: its name and its cells. *)
Record series : Type := mkSeries {
  name : option string;
  values : list scalar
}.

(** [pd.isna]: [None] and NaN. *)
Definition is_missing (a : scalar) : bool :=
  match a with
  | SNone => true
  | SFloat r => String.eqb r "nan"
  | _ => false
  end.

(** [series.dropna()] *)
Definition dropna (vs : list scalar) : list scalar :=
  filter (fun a => negb (is_missing a)) vs.

Definition boolean_vocabulary : list string :=
  ["true"; "false"; "0"; "1"; "yes"; "no"].

(** One cell of [s.astype(str).str.lower()] *)
Definition lower_text (a : scalar) : string :=
  Text.to_string (Text.lower (Text.of_string (Py.str a))).

Definition in_vocabulary (a : scalar) : bool :=
  existsb (String.eqb (lower_text a)) boolean_vocabulary.

(** [float(x)] returns: a string has to follow the float grammar, an
    integer has to fit a double ([OverflowError] from 2^1024 - 2^970 on),
    [None] is a [TypeError]. *)
Definition float_overflow_bound : Z := (2 ^ 1024 - 2 ^ 970)%Z.

Definition float_ok (a : scalar) : bool :=
  match a with
  | SNone => false
  | SBool _ => true
  | SInt n => (Z.abs n <? float_overflow_bound)%Z
  | SFloat _ => true
  | SStr s => Text.float_parses s
  end.

Section Infer.

(** [float(x).is_integer()] for a value [float] accepts: the rounding of
    [float] is not modelled, its outcome is a parameter. *)
Variable float_is_integer : scalar -> bool.

Definition is_intlike (x : scalar) : bool :=
  if float_ok x then float_is_integer x else false.

Definition is_floatlike (x : scalar) : bool := float_ok x.

Definition infer_twenty_type (ser : series) : inferred_type :=
  let s := dropna (values ser) in
  match s with
  | [] => TEXT
  | _ =>
      if forallb in_vocabulary s then BOOLEAN
      else if forallb is_intlike s then NUMBER
      else if forallb is_floatlike s then NUMBER
      else
        match name ser with
        | Some n =>
            if negb (String.eqb n "")
               && existsb (String.eqb (Text.to_string (Text.lower (Text.of_string n))))
                    ["external_id"; "id"; "uuid"]
            then TEXT
            else TEXT
        | None => TEXT
        end
  end.

End Infer.

(** ** Metadata: fields *)

(** The payload shapes [get_fields_for_object] accepts. *)
Definition fields_payload (res : json) : result json :=
  data <~ Py.get res "data" res ;;
  match data with
  | JDict d =>
      match Py.lookup "fields" d with
      | Some fields => OK fields
      | None =>
          if Py.has_key "pageInfo" d then
            match first_list_under ["fields"; "items"; "nodes"] d with
            | Some l => OK l
            | None => Raise (RuntimeError "Unexpected fields payload shape")
            end
          else Raise (RuntimeError "Unexpected fields payload shape")
      end
  | JList _ => OK data
  | _ => Raise (RuntimeError "Unexpected fields payload shape")
  end.

(** A data frame, column by column; [df[col]] raises [KeyError]. *)
Definition data_frame := list (string * list scalar).

Fixpoint column (col : string) (df : data_frame) : result series :=
  match df with
  | [] => Raise (KeyError col)
  | (c, vs) :: df' =>
      if String.eqb c col then OK (mkSeries (Some c) vs) else column col df'
  end.






Section Calls.

Context {S : Type}.
Variable handle : request -> S -> response * S.
Variable float_is_integer : scalar -> bool.

(** ** Metadata: objects *)

Definition get_objects : M S json :=
  res <- http handle GET MetadataObjects [] None ;;
  lift (data <~ Py.get res "data" res ;;
        match data with
        | JDict d =>
            match Py.lookup "objects" d with
            | Some objects => OK objects
            | None => Raise (RuntimeError "Unexpected objects payload shape")
            end
        | JList _ => OK data
        | _ => Raise (RuntimeError "Unexpected objects payload shape")
        end).

Definition find_object (name_singular : string) : M S json :=
  objects <- get_objects ;;
  os <- lift (Py.iter objects) ;;
  lift (first_named (JStr name_singular) os).

Definition create_object (name_singular name_plural label_singular label_plural
    description icon : string) : M S json :=
  http handle POST MetadataObjects []
    (Some (JDict [("nameSingular", JStr name_singular);
                  ("namePlural", JStr name_plural);
                  ("labelSingular", JStr label_singular);
                  ("labelPlural", JStr label_plural);
                  ("description", JStr description);
                  ("icon", JStr icon);
                  ("labelIdentifierFieldMetadataId", JNull);
                  ("imageIdentifierFieldMetadataId", JNull)])).

(** ** Metadata: fields, through the session *)

Definition get_fields_for_object (object_metadata_id : json) : M S json :=
  res <- http handle GET MetadataFields
           [("objectMetadataId", object_metadata_id)] None ;;
  lift (fields_payload res).

Definition create_field (object_metadata_id : json) (name label field_type : string)
    (description : string) (is_nullable : bool) (default_value settings options : json)
    : M S json :=
  let payload :=
    JDict [("type", JStr field_type);
           ("objectMetadataId", object_metadata_id);
           ("name", JStr name);
           ("label", JStr label);
           ("description", JStr description);
           ("icon", JStr "");
           ("defaultValue", default_value);
           ("isNullable", JBool is_nullable);
           ("settings", if Py.truthy settings then settings else JDict []);
           ("options", if Py.truthy options then options else JList [])] in
  http handle POST MetadataFields [] (Some payload).

(** The body of the loop of [ensure_fields]. *)
Definition ensure_field (object_metadata_id : json) (existing_names : list json)
    (df : data_frame) (col : string) : M S unit :=
  field_name <- lift (slugify col) ;;
  if Py.mem (JStr field_name) existing_names then ret tt
  else
    ser <- lift (column col df) ;;
    let field_type := infer_twenty_type float_is_integer ser in
    create_field object_metadata_id field_name col (type_name field_type)
      ("Imported from CSV column '" ++ col ++ "'")%string true JNull JNull JNull ;;
    ret tt.

Definition ensure_fields (object_metadata_id : json) (csv_columns : list string)
    (df : data_frame) : M S unit :=
  existing <- get_fields_for_object object_metadata_id ;;
  fs <- lift (Py.iter existing) ;;
  existing_names <- lift (field_names fs) ;;
  for_each csv_columns (ensure_field object_metadata_id existing_names df).

(** ** Data (records) *)





End Calls.

End Main.

(* ================================================================= *)
(** * src/apply_twenty_schema.py *)

Module ApplySchema.

(** The payload shapes [list_fields] accepts, normalised to a list. *)
Definition fields_listing (res : json) : result (list json) :=
  data <~ Py.get res "data" res ;;
  match data with
  | JDict d =>
      match Py.lookup "fields" d with
      | Some (JList l) => OK l
      | _ =>
          if Py.has_key "pageInfo" d then
            match first_list_under ["fields"; "items"; "nodes"] d with
            | Some (JList l) => OK l
            | _ => Raise (RuntimeError "Unexpected fields payload shape")
            end
          else Raise (RuntimeError "Unexpected fields payload shape")
      end
  | JList l => OK l
  | _ => Raise (RuntimeError "Unexpected fields payload shape")
  end.

(** [[f for f in fields if f.get("objectMetadataId") == object_metadata_id]] *)
Fixpoint owned_by (object_metadata_id : json) (fields : list json)
    : result (list json) :=
  match fields with
  | [] => OK []
  | f :: fields' =>
      owner <~ Py.get f "objectMetadataId" JNull ;;
      rest <~ owned_by object_metadata_id fields' ;;
      OK (if Py.eq owner object_metadata_id then f :: rest else rest)
  end.

(** [snake_to_camel(snake_str)] *)
Definition snake_to_camel (snake_str : string) : string :=
  match Text.split "_" (Text.of_string snake_str) with
  | [] => ""
  | first :: others =>
      Text.to_string (first ++ List.concat (map Text.title others))%list
  end.

(** [snake_to_camel(v)] on a value that need not be a string: lists and
    dictionaries have no [split]. *)
Definition snake_to_camel_value (v : json) : result json :=
  match v with
  | JStr s => OK (JStr (snake_to_camel s))
  | _ => Raise AttributeError
  end.

(** [snake_to_camel(v) if '_' in v else v] *)
Definition camel_if_underscore (v : json) : result json :=
  b <~ Py.contains_underscore v ;;
  if b then snake_to_camel_value v else OK v.

(** The four required entries of a field payload. *)
Definition minimal_payload (object_metadata_id f : json) : result dict :=
  raw <~ Py.getitem f "name" ;;
  field_name <~ camel_if_underscore raw ;;
  ty <~ Py.getitem f "type" ;;
  label <~ Py.get f "label" raw ;;
  OK [("type", ty); ("objectMetadataId", object_metadata_id);
      ("name", field_name); ("label", label)].

Definition entry_when_truthy (key : string) (d : dict) : dict :=
  match Py.lookup key d with
  | Some v => if Py.truthy v then [(key, v)] else []
  | None => []
  end.

(** The optional entries, in the order [create_field] adds them. *)
Definition optional_entries (d : dict) : dict :=
  entry_when_truthy "description" d
  ++ match Py.lookup "isNullable" d with Some v => [("isNullable", v)] | None => [] end
  ++ entry_when_truthy "icon" d
  ++ match Py.lookup "defaultValue" d with
     | Some v => if Py.is_none v then [] else [("defaultValue", v)]
     | None => []
     end
  ++ entry_when_truthy "settings" d
  ++ entry_when_truthy "options" d.

Definition full_payload (object_metadata_id f : json) : result dict :=
  required <~ minimal_payload object_metadata_id f ;;
  match f with
  | JDict d => OK (required ++ optional_entries d)
  | _ => Raise TypeError
  end.

Section Calls.

Context {S : Type}.
Variable handle : request -> S -> response * S.

Definition list_objects : M S json :=
  res <- http handle GET MetadataObjects [] None ;;
  lift (objects_payload res).

Definition find_object_by_singular (name_singular : json) : M S json :=
  objects <- list_objects ;;
  os <- lift (Py.iter objects) ;;
  lift (first_named name_singular os).

Definition create_object (obj : json) : M S json :=
  name_singular <- lift (Py.getitem obj "nameSingular") ;;
  name_plural <- lift (Py.getitem obj "namePlural") ;;
  label_singular <- lift (Py.getitem obj "labelSingular") ;;
  label_plural <- lift (Py.getitem obj "labelPlural") ;;
  description <- lift (Py.get obj "description" (JStr "")) ;;
  icon <- lift (Py.get obj "icon" (JStr "")) ;;
  http handle POST MetadataObjects []
    (Some (JDict [("nameSingular", name_singular);
                  ("namePlural", name_plural);
                  ("labelSingular", label_singular);
                  ("labelPlural", label_plural);
                  ("description", description);
                  ("icon", icon)])).

Definition list_fields (object_metadata_id : json) : M S (list json) :=
  res <- http handle GET MetadataFields [] None ;;
  fields <- lift (fields_listing res) ;;
  lift (owned_by object_metadata_id fields).

Definition post_field (payload : dict) : M S json :=
  http handle POST MetadataFields [] (Some (JDict payload)).

Definition create_field (object_metadata_id f : json) : M S json :=
  payload <- lift (full_payload object_metadata_id f) ;;
  try_except_runtime (post_field payload)
    (minimal <- lift (minimal_payload object_metadata_id f) ;;
     if Py.has_key "icon" payload
     then try_except_runtime (post_field (Py.without "icon" payload))
            (post_field minimal)
     else post_field minimal).

(** The body of the loop over the declared fields. *)
Definition apply_schema_field (object_id : json) (current_names : list json)
    (f : json) : M S unit :=
  fname <- lift (Py.getitem f "name") ;;
  fname_camel <- lift (camel_if_underscore fname) ;;
  known <- lift (Py.in_set fname current_names) ;;
  known <- (if known : bool then ret true
            else lift (Py.in_set fname_camel current_names)) ;;
  if known : bool then ret tt
  else
    lift (Py.getitem f "type") ;;
    create_field object_id f ;;
    ret tt.

(** The body of the loop over the declared objects. *)
Definition apply_schema_object (obj : json) : M S unit :=
  name_singular <- lift (Py.getitem obj "nameSingular") ;;
  found <- find_object_by_singular name_singular ;;
  existing <-
    (if negb (Py.truthy found) then
       create_object obj ;;
       again <- find_object_by_singular name_singular ;;
       if negb (Py.truthy again)
       then raise (RuntimeError "Object not found after create")
       else ret again
     else
       lift (Py.getitem found "id") ;;
       ret found) ;;
  object_id <- lift (Py.getitem existing "id") ;;
  current_fields <- list_fields object_id ;;
  current_names <- lift (field_names current_fields) ;;
  if negb (Py.sortable current_names) then raise TypeError
  else
    declared <- lift (Py.get obj "fields" (JList [])) ;;
    fs <- lift (Py.iter declared) ;;
    for_each fs (apply_schema_field object_id current_names).

Definition apply_schema (schema : json) : M S unit :=
  objects <- lift (Py.get schema "objects" (JList [])) ;;
  match objects with
  | JList (o :: os) => for_each (o :: os) apply_schema_object
  | _ => raise (ValueError "YAML must have 'objects:' as a non-empty list")
  end.

End Calls.

End ApplySchema.

(* ================================================================= *)
(** * src/delete_twenty_object.py *)

Module DeleteObject.

Section Calls.

Context {S : Type}.
Variable handle : request -> S -> response * S.

Definition list_objects : M S json :=
  res <- http handle GET MetadataObjects [] None ;;
  lift (objects_payload res).

Definition find_object (name_singular : string) : M S json :=
  objects <- list_objects ;;
  os <- lift (Py.iter objects) ;;
  lift (first_named (JStr name_singular) os).

(** [main()] after the command line is read: [name_singular] is
    [sys.argv[1]], [hard] tells whether [--hard] follows it. *)
Definition main (name_singular : string) (hard : bool) : M S unit :=
  obj <- find_object name_singular ;;
  if negb (Py.truthy obj) then ret tt
  else
    obj_id <- lift (Py.getitem obj "id") ;;
    is_custom <- lift (Py.get obj "isCustom" JNull) ;;
    if negb (Py.truthy is_custom)
    then raise (RuntimeError "Refusing to delete non-custom object (isCustom=false)")
    else if hard then
      http handle DELETE (MetadataObject obj_id) [] None ;;
      ret tt
    else
      http handle PATCH (MetadataObject obj_id) []
        (Some (JDict [("isActive", JBool false)])) ;;
      ret tt.

End Calls.

End DeleteObject.

(* ================================================================= *)
(** * The remote metadata store *)

(** Modelled from the spec: the remote service behind the gateway, which
    the repository does not contain.  Sections 1 and 6 treat it as a
    metadata store reached through list and create calls: it keeps the
    objects and the fields created so far, lists them, and appends what a
    create call sends.  What the spec leaves open is a parameter: the shape
    of a listing, whether the field listing honours the [objectMetadataId]
    query parameter, the identifiers the store hands out, and which calls
    it turns down. *)
Module Store.

Record remote : Type := mkRemote {
  objects : list json;
  fields : list json
}.

(** The three listing shapes the scripts' parsers share:
    [{"data": {key: [...], "pageInfo": {}}}], [{"data": [...]}] and
    [{key: [...]}]. *)
Inductive listing_shape : Type := Keyed | Bare | Plain.

Definition render (shape : listing_shape) (key : string) (items : list json) : json :=
  match shape with
  | Keyed => JDict [("data", JDict [(key, JList items); ("pageInfo", JDict [])])]
  | Bare => JDict [("data", JList items)]
  | Plain => JDict [(key, JList items)]
  end.

(** A call the store turns down: with a status of 400 or more, or with no
    reply at all.  The store is left as it was. *)
Inductive fault : Type :=
| Refuse (status : Z)
| Drop.

Definition fault_response (f : fault) : response :=
  match f with
  | Refuse status => Reply (Z.max 400 status) Blank
  | Drop => NoReply
  end.

(** The fields a listing shows when the store filters by owner. *)
Definition owned (owner : json) (f : json) : bool :=
  match f with
  | JDict d =>
      match Py.lookup "objectMetadataId" d with
      | Some o => Py.eq o owner
      | None => false
      end
  | _ => false
  end.

Section Handler.

Variable shape : listing_shape.
Variable honours_filter : bool.
Variable new_id : remote -> json.
Variable faults : request -> remote -> option fault.

Definition listed_fields (q : dict) (r : remote) : list json :=
  match Py.lookup "objectMetadataId" q with
  | Some owner => if honours_filter then filter (owned owner) (fields r) else fields r
  | None => fields r
  end.

Definition serve (req : request) (r : remote) : response * remote :=
  match method req, target req, body req with
  | GET, MetadataObjects, _ =>
      (Reply 200 (Json (render shape "objects" (objects r))), r)
  | GET, MetadataFields, _ =>
      (Reply 200 (Json (render shape "fields" (listed_fields (params req) r))), r)
  | POST, MetadataObjects, Some (JDict d) =>
      let o := JDict (("id", new_id r) :: ("isCustom", JBool true) :: d) in
      (Reply 201 (Json o), mkRemote (objects r ++ [o]) (fields r))
  | POST, MetadataFields, Some (JDict d) =>
      let f := JDict (("id", new_id r) :: d) in
      (Reply 201 (Json f), mkRemote (objects r) (fields r ++ [f]))
  | _, _, _ => (Reply 404 Blank, r)
  end.

Definition handle (req : request) (r : remote) : response * remote :=
  match faults req r with
  | Some f => (fault_response f, r)
  | None => serve req r
  end.

End Handler.

End Store.

(** ** Counting calls *)

Definition is_create (req : request) : bool :=
  match method req, target req with
  | POST, MetadataObjects | POST, MetadataFields | POST, Records _ => true
  | _, _ => false
  end.

Definition is_update (req : request) : bool :=
  match method req with PATCH => true | _ => false end.

Definition is_delete (req : request) : bool :=
  match method req with DELETE => true | _ => false end.

(** A call that may change remote state: anything but a [GET]. *)
Definition is_mutation (req : request) : bool :=
  match method req with GET => false | _ => true end.

Definition count (p : request -> bool) (log : list request) : nat :=
  List.length (filter p log).

(** Running a script from a server state with an empty log. *)
Definition run {S A : Type} (m : M S A) (s : S) : result A * world S :=
  m (mkWorld s []).

(* ================================================================= *)
(** * Properties *)

Import Text.

(** A well-formed slug: not empty, made of lower-case letters, digits and
    underscores, no two underscores in a row, no underscore at either end,
    no digit in front. *)
Definition well_formed_slug (r : string) : bool :=
  let cs := of_string r in
  match cs with [] => false | _ => true end
  && forallb slug_char cs
  && no_double_underscore cs
  && negb (starts_with is_underscore cs)
  && negb (ends_with is_underscore cs)
  && negb (starts_with is_digit cs).

(** The text [slugify] has in hand when it tests for emptiness. *)
Definition slug_core (s : string) : chars :=
  strip is_underscore
    (re_sub_runs is_underscore false
       (re_sub_runs Main.not_slug_char false
          (lower (strip is_space (of_string s))))).


(** The priority order of section 4.1, over the values alone: no value
    present gives text; all in the boolean vocabulary gives boolean; all
    accepted by [float] gives numeric; text otherwise. *)
Definition inferred_by_priority (vs : list scalar) : Main.inferred_type :=
  match Main.dropna vs with
  | [] => Main.TEXT
  | present =>
      if forallb Main.in_vocabulary present then Main.BOOLEAN
      else if forallb Main.float_ok present then Main.NUMBER
      else Main.TEXT
  end.






Definition list_objects_call : request := mkRequest GET MetadataObjects [] None.

Definition field_call (payload : dict) : request :=
  mkRequest POST MetadataFields [] (Some (JDict payload)).

(** The payload tiers of section 4.2, in the order they are tried: the
    full payload, the same without its icon when it has one, the minimal
    payload. *)
Definition payload_tiers (payload minimal : dict) : list dict :=
  if Py.has_key "icon" payload
  then [payload; Py.without "icon" payload; minimal]
  else [payload; minimal].

(** Trying payloads in order: a tier is sent only after the one before it
    failed with a [RuntimeError]; the first result that is not such a
    failure is the outcome, and the outcome of the last tier stands
    whatever it is. *)
Inductive tried {S : Type} (post : dict -> M S json)
  : list dict -> world S -> result json * world S -> Prop :=
| tried_last p w :
    tried post [p] w (post p w)
| tried_accepted p rest w v w' :
    post p w = (OK v, w') ->
    tried post (p :: rest) w (OK v, w')
| tried_aborted p rest w e w' :
    post p w = (Raise e, w') -> is_runtime_error e = false ->
    tried post (p :: rest) w (Raise e, w')
| tried_next p rest w e w' out :
    rest <> [] ->
    post p w = (Raise e, w') -> is_runtime_error e = true ->
    tried post rest w' out ->
    tried post (p :: rest) w out.

Definition list_fields_call : request := mkRequest GET MetadataFields [] None.

(** [f.get("objectMetadataId") == object_id] *)
Definition owner_is (object_id : json) (f : json) : bool :=
  match Py.get f "objectMetadataId" JNull with
  | OK owner => Py.eq owner object_id
  | Raise _ => false
  end.

(** The canonical, camel-style form of a declared name. *)
Definition canonical_name (s : string) : string :=
  if Text.has_underscore (Text.of_string s) then ApplySchema.snake_to_camel s else s.

(** The existence check of the reconciler on a declared name. *)
Definition known_field (s : string) (names : list json) : bool :=
  Py.mem (JStr s) names || Py.mem (JStr (canonical_name s)) names.

(** A store that hands out ["id-0"], ["id-1"], ... and turns nothing down. *)
Definition counter_id (r : Store.remote) : json :=
  JStr ("id-" ++ Py.str (SInt (Z.of_nat (List.length (Store.objects r)
                                           + List.length (Store.fields r)))))%string.

Definition plain_store : request -> Store.remote -> response * Store.remote :=
  Store.handle Store.Keyed false counter_id (fun _ _ => None).

(** The exception a call the store turns down ends in. *)
Definition fault_exn (m : http_method) (p : endpoint) (f : Store.fault) : exn :=
  match f with
  | Store.Refuse status => HttpError m p (Z.max 400 status)
  | Store.Drop => RequestException
  end.

(** [f.get("name")] with [None] for a value that has no [get]. *)
Definition name_of (f : json) : json :=
  match Py.get f "name" JNull with
  | OK n => n
  | Raise _ => JNull
  end.

(** A field as the reconciler leaves it in the store: a dictionary whose
    name is hashable. *)
Definition good_field (f : json) : bool :=
  Py.is_dict f && Py.hashable (name_of f).

(** [later r r']: the store [r'] is [r] with objects and good fields
    appended. *)
Definition later (r r' : Store.remote) : Prop :=
  exists os fs,
    Store.objects r' = Store.objects r ++ os
    /\ Store.fields r' = Store.fields r ++ fs
    /\ forallb good_field fs = true.

(** [reads w w']: from [w] to [w'] only [GET] calls were issued and the
    server did not change. *)
Definition reads {S : Type} (w w' : world S) : Prop :=
  server w' = server w
  /\ exists new,
      calls w' = calls w ++ new
      /\ forallb (fun c => negb (is_mutation c)) new = true.

(** Object [oid] has a field named [x] among [fs]. *)
Definition has_name (oid : json) (fs : list json) (x : json) : Prop :=
  exists f, In f fs /\ owner_is oid f = true /\ Py.eq x (name_of f) = true.

(** A declared field the existence check accepts whenever the fields of
    object [oid] include those of [fs]. *)
Definition field_settled (oid : json) (fs : list json) (f : json) : Prop :=
  exists fname fcamel,
    Py.getitem f "name" = OK fname
    /\ ApplySchema.camel_if_underscore fname = OK fcamel
    /\ Py.hashable fname = true
    /\ (has_name oid fs fname
        \/ (Py.hashable fcamel = true /\ has_name oid fs fcamel)).

(** A declared object for which the store [r] holds the object and all of
    its declared fields. *)
Definition object_settled (r : Store.remote) (obj : json) : Prop :=
  exists name_singular existing oid owned names declared fs,
    Py.getitem obj "nameSingular" = OK name_singular
    /\ first_named name_singular (Store.objects r) = OK existing
    /\ Py.truthy existing = true
    /\ Py.getitem existing "id" = OK oid
    /\ ApplySchema.owned_by oid (Store.fields r) = OK owned
    /\ field_names owned = OK names
    /\ Py.get obj "fields" (JList []) = OK declared
    /\ Py.iter declared = OK fs
    /\ Forall (field_settled oid (Store.fields r)) fs.

(** How a run that changes nothing may end: well; on the [TypeError] of
    [sorted(current_names)], when the names of an object's fields are not
    all of one kind; or on a listing the store turns down. *)
Definition benign (res : result unit) : Prop :=
  res = OK tt
  \/ res = Raise TypeError
  \/ exists p f, res = Raise (fault_exn GET p f).

(** Running [m] on the server [s] leaves [s] as it is and issues no create
    call, indeed no call other than [GET]. *)
Definition changes_nothing {S : Type} (m : M S unit) (s : S) : Prop :=
  let out := run m s in
  server (snd out) = s
  /\ count is_create (calls (snd out)) = 0
  /\ count is_mutation (calls (snd out)) = 0.

(** The call of [get_fields_for_object]. *)
Definition object_fields_call (oid : json) : request :=
  mkRequest GET MetadataFields [("objectMetadataId", oid)] None.

(** A column whose slug names one of the listed fields. *)
Definition column_settled (listing : list json) (col : string) : Prop :=
  exists slug f,
    Main.slugify col = OK slug
    /\ In f listing
    /\ Py.eq (JStr slug) (name_of f) = true.

(** A gateway that answers every call with the same response. *)
Definition canned (resp : response) : request -> unit -> response * unit :=
  fun _ s => (resp, s).

(** The schema of the end-to-end scenario of section 8. *)
Definition deal_schema : json :=
  JDict [("objects",
          JList [JDict [("nameSingular", JStr "deal");
                        ("namePlural", JStr "deals");
                        ("labelSingular", JStr "Deal");
                        ("labelPlural", JStr "Deals");
                        ("fields",
                         JList [JDict [("name", JStr "name"); ("type", JStr "TEXT")];
                                JDict [("name", JStr "amount");
                                       ("type", JStr "NUMBER")]])]])].

(** [emits P m]: whatever the world, the calls [m] adds to the log all
    satisfy [P]. *)
Definition emits {S A : Type} (P : request -> Prop) (m : M S A) : Prop :=
  forall w, exists new, calls (snd (m w)) = calls w ++ new /\ Forall P new.



(** A call that reads or creates metadata: [GET] or [POST] on the objects
    or the fields endpoint. *)
Definition reads_or_creates_metadata (req : request) : Prop :=
  (method req = GET \/ method req = POST)
  /\ (target req = MetadataObjects \/ target req = MetadataFields).

(** [o.get("nameSingular") == name] holds, fails, or raises. *)
Definition named (name : json) (o : json) : result bool :=
  v <~ Py.get o "nameSingular" JNull ;; OK (Py.eq v name).





(** A declared field that the store holds for object [oid], under the
    declared name or its camel-style form. *)
Definition field_present (r : Store.remote) (oid : json) (f : json) : Prop :=
  exists fname fcamel stored,
    Py.getitem f "name" = OK fname
    /\ ApplySchema.camel_if_underscore fname = OK fcamel
    /\ In stored (Store.fields r)
    /\ owner_is oid stored = true
    /\ (Py.eq fname (name_of stored) = true
        \/ Py.eq fcamel (name_of stored) = true).

(** A declared object that the store holds, with all its declared fields. *)
Definition object_present (r : Store.remote) (obj : json) : Prop :=
  exists name_singular existing oid declared fs,
    Py.getitem obj "nameSingular" = OK name_singular
    /\ In existing (Store.objects r)
    /\ named name_singular existing = OK true
    /\ Py.getitem existing "id" = OK oid
    /\ Py.get obj "fields" (JList []) = OK declared
    /\ Py.iter declared = OK fs
    /\ Forall (field_present r oid) fs.

(** [s.lower()] on a string. *)
Definition lowercase (s : string) : string :=
  Text.to_string (Text.lower (Text.of_string s)).

(** The attributes [create_field] adds only when they are truthy. *)
Definition truthy_only_keys : list string :=
  ["description"; "icon"; "settings"; "options"].

(** The attributes every payload tier carries. *)
Definition required_keys : list string :=
  ["type"; "objectMetadataId"; "name"; "label"].

Definition create_object_call (payload : dict) : request :=
  mkRequest POST MetadataObjects [] (Some (JDict payload)).

(* ================================================================= *)
(** * Facts about text *)


Module TextFacts.
Import Text.

Ltac by_cases_on_char c :=
  destruct c as [[] [] [] [] [] [] [] []]; vm_compute; try reflexivity; try congruence; auto.

Lemma of_to_string (s : chars) : of_string (to_string s) = s.
Proof. apply list_ascii_of_string_of_list_ascii. Qed.

Lemma to_of_string (s : string) : to_string (of_string s) = s.
Proof. apply string_of_list_ascii_of_string. Qed.

Section Strip.

Variable p : ascii -> bool.

Lemma lstrip_suffix (s : chars) : exists pre, s = pre ++ lstrip p s /\ forallb p pre = true.
Proof.
  induction s as [|c s IH]; simpl.
  - exists []. auto.
  - destruct (p c) eqn:Hc.
    + destruct IH as [pre [E F]]. exists (c :: pre). simpl. rewrite Hc, F. split; [congruence | reflexivity].
    + exists []. auto.
Qed.

Lemma rstrip_prefix (s : chars) : exists post, s = rstrip p s ++ post /\ forallb p post = true.
Proof.
  induction s as [|c s IH]; simpl.
  - exists []. auto.
  - destruct IH as [post [E F]].
    destruct (rstrip p s) as [|d r] eqn:R.
    + destruct (p c) eqn:Hc.
      * exists (c :: post). simpl in *. rewrite Hc, F. split; [congruence | reflexivity].
      * exists post. simpl in *. split; [congruence | assumption].
    + exists post. split; [simpl in *; congruence | assumption].
Qed.

Lemma lstrip_head (s : chars) : forall c r, lstrip p s = c :: r -> p c = false.
Proof.
  induction s as [|d s IH]; simpl; intros c r H; [discriminate|].
  destruct (p d) eqn:Hd; [eauto | congruence].
Qed.

Lemma rstrip_last (s : chars) : forall r c, rstrip p s = r ++ [c] -> p c = false.
Proof.
  induction s as [|d s IH]; simpl; intros r c H.
  - destruct r; discriminate.
  - destruct (rstrip p s) as [|e t] eqn:R.
    + destruct (p d) eqn:Hd.
      * destruct r; discriminate.
      * destruct r as [|x [|y r]]; simpl in H; try discriminate. congruence.
    + destruct r as [|x r]; simpl in H; [discriminate|].
      injection H as _ H. eapply IH. eassumption.
Qed.

Lemma rstrip_head (s : chars) : forall c r, rstrip p s = c :: r -> exists t, s = c :: t.
Proof.
  destruct s as [|d s]; simpl; intros c r H; [discriminate|].
  destruct (rstrip p s); [destruct (p d)|]; try discriminate; injection H as -> _; eauto.
Qed.


Lemma lstrip_nil (s : chars) : lstrip p s = [] <-> forallb p s = true.
Proof.
  induction s as [|c s IH]; simpl; [tauto|].
  destruct (p c); simpl; [assumption|]. split; discriminate.
Qed.



(** A stripped text is a segment of the text it comes from. *)
Lemma strip_segment (s : chars) :
  exists pre post, s = pre ++ strip p s ++ post
                   /\ forallb p pre = true /\ forallb p post = true.
Proof.
  destruct (lstrip_suffix s) as [pre [E1 F1]].
  destruct (rstrip_prefix (lstrip p s)) as [post [E2 F2]].
  exists pre, post. unfold strip. rewrite <- E2. auto.
Qed.

Lemma strip_head (s : chars) : forall c r, strip p s = c :: r -> p c = false.
Proof.
  unfold strip. intros c r H.
  destruct (rstrip_head _ _ _ H) as [t E].
  eapply lstrip_head. eassumption.
Qed.

Lemma strip_last (s : chars) : forall r c, strip p s = r ++ [c] -> p c = false.
Proof. unfold strip. intros r c. apply rstrip_last. Qed.

End Strip.

(** ** Runs replaced by an underscore *)

Lemma re_sub_runs_chars (p q : ascii -> bool) (s : chars) :
  q "_"%char = true ->
  (forall c, p c = false -> q c = true) ->
  forall b, forallb q (re_sub_runs p b s) = true.
Proof.
  intros Hus Hq. induction s as [|c s IH]; intro b; simpl; [reflexivity|].
  destruct (p c) eqn:Hc.
  - destruct b; simpl; rewrite ?Hus; apply IH.
  - simpl. rewrite (Hq c Hc). apply IH.
Qed.

Lemma re_sub_runs_keeps (p q : ascii -> bool) (s : chars) :
  q "_"%char = true ->
  forallb q s = true ->
  forall b, forallb q (re_sub_runs p b s) = true.
Proof.
  intros Hus. induction s as [|c s IH]; intros H b; simpl in *; [reflexivity|].
  apply andb_true_iff in H. destruct H as [Hc Hs].
  destruct (p c); [destruct b|]; simpl; rewrite ?Hus, ?Hc; simpl; apply IH; assumption.
Qed.


Lemma collapse_no_double (s : chars) :
  forall b,
    no_double_underscore (re_sub_runs is_underscore b s) = true
    /\ (b = true -> starts_with is_underscore (re_sub_runs is_underscore b s) = false).
Proof.
  induction s as [|c s IH]; intro b; simpl; [auto|].
  destruct (is_underscore c) eqn:Hc.
  - destruct (IH true) as [N H]. specialize (H eq_refl).
    destruct b; [auto|]. split; [|discriminate].
    simpl. rewrite N.
    destruct (re_sub_runs is_underscore true s) as [|d r]; [reflexivity|].
    simpl in H. rewrite H. reflexivity.
  - destruct (IH false) as [N _]. split; [|intros _; simpl; assumption].
    simpl. rewrite N, Hc. simpl.
    now destruct (re_sub_runs is_underscore false s).
Qed.

Lemma no_double_app (a b : chars) :
  no_double_underscore (a ++ b) = true ->
  no_double_underscore a = true /\ no_double_underscore b = true.
Proof.
  induction a as [|c a IH]; simpl; intro H; [auto|].
  apply andb_true_iff in H. destruct H as [H1 H2].
  destruct (IH H2) as [Ha Hb]. split; [|assumption].
  rewrite Ha, andb_true_r.
  destruct a as [|d a]; [reflexivity | exact H1].
Qed.

Lemma no_double_segment (pre mid post : chars) :
  no_double_underscore (pre ++ mid ++ post) = true ->
  no_double_underscore mid = true.
Proof.
  intro H. apply no_double_app in H. destruct H as [_ H].
  apply no_double_app in H. tauto.
Qed.

Lemma forallb_segment (q : ascii -> bool) (pre mid post : chars) :
  forallb q (pre ++ mid ++ post) = true -> forallb q mid = true.
Proof.
  rewrite !forallb_app. intro H.
  apply andb_true_iff in H. destruct H as [_ H].
  apply andb_true_iff in H. tauto.
Qed.



Lemma ends_with_strip (p : ascii -> bool) (s : chars) :
  ends_with p (strip p s) = false.
Proof.
  unfold ends_with, starts_with.
  destruct (rev (strip p s)) as [|c r] eqn:R; [reflexivity|].
  apply (strip_last p s (rev r) c).
  rewrite <- (rev_involutive (strip p s)), R. reflexivity.
Qed.

Lemma starts_with_strip (p : ascii -> bool) (s : chars) :
  starts_with p (strip p s) = false.
Proof.
  unfold starts_with. destruct (strip p s) as [|c r] eqn:R; [reflexivity|].
  eapply strip_head. eassumption.
Qed.

Lemma ends_with_cons (p : ascii -> bool) (c d : ascii) (s : chars) :
  ends_with p (c :: d :: s) = ends_with p (d :: s).
Proof.
  unfold ends_with, starts_with. simpl.
  destruct (rev s ++ [d]) as [|x r] eqn:E; [|reflexivity].
  destruct (rev s); discriminate.
Qed.

(** ** Characters *)



Lemma digit_not_underscore (c : ascii) : is_digit c = true -> is_underscore c = false.
Proof. by_cases_on_char c. Qed.


End TextFacts.


Import TextFacts.

Lemma slug_core_chars (s : string) : forallb slug_char (slug_core s) = true.
Proof.
  unfold slug_core.
  destruct (strip_segment is_underscore
              (re_sub_runs is_underscore false
                 (re_sub_runs Main.not_slug_char false
                    (lower (strip is_space (of_string s))))))
    as [pre [post [E _]]].
  apply forallb_segment with (pre := pre) (post := post). rewrite <- E.
  apply re_sub_runs_keeps; [reflexivity|].
  apply re_sub_runs_chars; [reflexivity|].
  intros c H. unfold Main.not_slug_char in H. unfold slug_char.
  apply negb_false_iff in H. now rewrite H.
Qed.

Lemma slug_core_no_double (s : string) : no_double_underscore (slug_core s) = true.
Proof.
  unfold slug_core.
  destruct (strip_segment is_underscore
              (re_sub_runs is_underscore false
                 (re_sub_runs Main.not_slug_char false
                    (lower (strip is_space (of_string s))))))
    as [pre [post [E _]]].
  apply no_double_segment with (pre := pre) (post := post). rewrite <- E.
  apply collapse_no_double.
Qed.




Lemma slugify_core (s : string) :
  Main.slugify s =
  match slug_core s with
  | [] => Raise (ValueError "Cannot slugify empty string")
  | c :: _ =>
      if is_digit c
      then OK (to_string ("f"%char :: "_"%char :: slug_core s))
      else OK (to_string (slug_core s))
  end.
Proof. reflexivity. Qed.


(* ================================================================= *)
(** * Type inference *)

Section InferFacts.

Variable float_is_integer : scalar -> bool.

Lemma intlike_floatlike (vs : list scalar) :
  forallb (Main.is_intlike float_is_integer) vs = true ->
  forallb Main.is_floatlike vs = true.
Proof.
  induction vs as [|v vs IH]; simpl; [reflexivity|].
  intro H. apply andb_true_iff in H. destruct H as [Hv Hvs].
  unfold Main.is_intlike in Hv. unfold Main.is_floatlike at 1.
  destruct (Main.float_ok v); [simpl; auto | discriminate].
Qed.

Lemma infer_twenty_type_values (ser : Main.series) :
  Main.infer_twenty_type float_is_integer ser
  = inferred_by_priority (Main.values ser).
Proof.
  unfold Main.infer_twenty_type, inferred_by_priority.
  destruct (Main.dropna (Main.values ser)) as [|v vs]; [reflexivity|].
  destruct (forallb Main.in_vocabulary (v :: vs)); [reflexivity|].
  destruct (forallb (Main.is_intlike float_is_integer) (v :: vs)) eqn:Hint.
  - apply intlike_floatlike in Hint.
    change (forallb Main.float_ok (v :: vs) = true) in Hint.
    now rewrite Hint.
  - change (forallb Main.is_floatlike (v :: vs)) with (forallb Main.float_ok (v :: vs)).
    destruct (forallb Main.float_ok (v :: vs)); [reflexivity|].
    destruct (Main.name ser) as [n|]; [|reflexivity].
    now destruct (negb (n =? "") && _).
Qed.


(** C9. The inferred type does not depend on the name of the column. *)
Theorem infer_twenty_type_ignores_name (n1 n2 : option string) (vs : list scalar) :
  Main.infer_twenty_type float_is_integer (Main.mkSeries n1 vs)
  = Main.infer_twenty_type float_is_integer (Main.mkSeries n2 vs).
Proof. now rewrite !infer_twenty_type_values. Qed.

End InferFacts.
(* ================================================================= *)
(** * The session monad *)

Section SessionFacts.

Context {S : Type}.
Variable handle : request -> S -> response * S.

Lemma bind_ok_inv {A B : Type} (m : M S A) (k : A -> M S B) w b w' :
  bind m k w = (OK b, w') ->
  exists a w1, m w = (OK a, w1) /\ k a w1 = (OK b, w').
Proof.
  unfold bind. destruct (m w) as [[a|e] w1]; intro H; [eauto | discriminate].
Qed.

Lemma bind_step {A B : Type} (m : M S A) (k : A -> M S B) w a w1 :
  m w = (OK a, w1) -> bind m k w = k a w1.
Proof. unfold bind. now intros ->. Qed.

Lemma bind_raise {A B : Type} (m : M S A) (k : A -> M S B) w e w1 :
  m w = (Raise e, w1) -> bind m k w = (Raise e, w1).
Proof. unfold bind. now intros ->. Qed.

Lemma lift_ok_inv {A : Type} (r : result A) (w : world S) a w' :
  lift r w = (OK a, w') -> r = OK a /\ w' = w.
Proof. unfold lift. intro H. injection H as -> ->. auto. Qed.

(** Every call goes to the log, whatever comes back. *)
Lemma http_calls m p q b (w : world S) :
  calls (snd (http handle m p q b w)) = calls w ++ [mkRequest m p q b].
Proof.
  unfold http. destruct (handle _ (server w)) as [[st [|v|]|] s']; simpl;
    try reflexivity; destruct (400 <=? st)%Z; reflexivity.
Qed.

Lemma http_calls_eq m p q b (w : world S) r w' :
  http handle m p q b w = (r, w') -> calls w' = calls w ++ [mkRequest m p q b].
Proof. intro H. rewrite <- http_calls, H. reflexivity. Qed.

End SessionFacts.

(* ================================================================= *)
(** * Record upsert *)

Section UpsertFacts.

Context {S : Type}.
Variable handle : request -> S -> response * S.





End UpsertFacts.

(* ================================================================= *)
(** * The lifecycle guard *)

Section DeleteFacts.

Context {S : Type}.
Variable handle : request -> S -> response * S.

Lemma find_object_calls (name : string) (w : world S) r w1 :
  DeleteObject.find_object handle name w = (r, w1) ->
  calls w1 = calls w ++ [list_objects_call].
Proof.
  unfold DeleteObject.find_object, DeleteObject.list_objects, bind, lift.
  destruct (http handle GET MetadataObjects [] None w) as [[res|e] w0] eqn:E;
    apply http_calls_eq in E; fold list_objects_call in E.
  - destruct (objects_payload res) as [objs|e]; [|now intros [= _ <-]].
    destruct (Py.iter objs) as [os|e]; now intros [= _ <-].
  - now intros [= _ <-].
Qed.

(** The guard refuses whenever the truth value of [isCustom] is false. *)
Lemma main_refuses (name : string) (hard : bool) (w : world S) obj w1 oid v :
  DeleteObject.find_object handle name w = (OK obj, w1) ->
  Py.truthy obj = true ->
  Py.getitem obj "id" = OK oid ->
  Py.get obj "isCustom" JNull = OK v ->
  Py.truthy v = false ->
  DeleteObject.main handle name hard w
  = (Raise (RuntimeError "Refusing to delete non-custom object (isCustom=false)"), w1).
Proof.
  intros Hfind Hobj Hid Hget Hv. unfold DeleteObject.main.
  rewrite (bind_step _ _ _ _ _ Hfind), Hobj. cbn [negb].
  rewrite Hid, Hget. cbn [lift bind]. rewrite Hv. reflexivity.
Qed.

(** C5. For an object that resolves, carries an identifier and whose
    [isCustom] is false, null or absent, the guard fails with the policy
    error whether or not [--hard] is given; the listing of objects is the
    only call, so no delete and no update is issued. *)
Theorem main_refuses_non_custom (name : string) (hard : bool) (s : S)
    (obj oid : json) (w1 : world S) :
  run (DeleteObject.find_object handle name) s = (OK obj, w1) ->
  Py.truthy obj = true ->
  Py.getitem obj "id" = OK oid ->
  Py.get obj "isCustom" JNull = OK (JBool false)
  \/ Py.get obj "isCustom" JNull = OK JNull ->
  run (DeleteObject.main handle name hard) s
  = (Raise (RuntimeError "Refusing to delete non-custom object (isCustom=false)"), w1)
  /\ calls w1 = [list_objects_call]
  /\ count is_mutation (calls w1) = 0
  /\ count is_delete (calls w1) = 0
  /\ count is_update (calls w1) = 0.
Proof.
  unfold run. intros Hfind Hobj Hid Hcustom.
  pose proof (find_object_calls _ _ _ _ Hfind) as Hlog. simpl in Hlog.
  split.
  - destruct Hcustom as [H|H];
      eapply main_refuses; eauto.
  - rewrite Hlog. repeat split.
Qed.

End DeleteFacts.

(* ================================================================= *)
(** * Field creation *)

Section CreateFieldFacts.

Context {S : Type}.
Variable handle : request -> S -> response * S.



Lemma full_payload_minimal (oid f : json) (payload : dict) :
  ApplySchema.full_payload oid f = OK payload ->
  exists minimal d,
    ApplySchema.minimal_payload oid f = OK minimal
    /\ f = JDict d
    /\ payload = minimal ++ ApplySchema.optional_entries d.
Proof.
  unfold ApplySchema.full_payload, rbind.
  destruct (ApplySchema.minimal_payload oid f) as [m|]; [|discriminate].
  destruct f as [a|l|d]; try discriminate.
  intros [= <-]. eauto.
Qed.

Lemma create_field_tried (oid f : json) (payload minimal : dict) (w : world S) :
  ApplySchema.full_payload oid f = OK payload ->
  ApplySchema.minimal_payload oid f = OK minimal ->
  tried (ApplySchema.post_field handle) (payload_tiers payload minimal) w
    (ApplySchema.create_field handle oid f w).
Proof.
  intros Hfull Hmin. unfold ApplySchema.create_field.
  rewrite Hfull. cbn [lift bind]. unfold try_except_runtime.
  unfold payload_tiers.
  destruct (ApplySchema.post_field handle payload w) as [[v|e] w1] eqn:E1.
  - destruct (Py.has_key "icon" payload); now apply tried_accepted.
  - destruct (is_runtime_error e) eqn:R1.
    + rewrite Hmin. cbn [lift bind].
      destruct (Py.has_key "icon" payload).
      * eapply tried_next; eauto; [discriminate|].
        destruct (ApplySchema.post_field handle (Py.without "icon" payload) w1)
          as [[v2|e2] w2] eqn:E2.
        -- now apply tried_accepted.
        -- destruct (is_runtime_error e2) eqn:R2.
           ++ eapply tried_next; eauto; [discriminate|]. apply tried_last.
           ++ now apply tried_aborted.
      * eapply tried_next; eauto; [discriminate|]. apply tried_last.
    + destruct (Py.has_key "icon" payload); now apply tried_aborted.
Qed.



End CreateFieldFacts.

(* ================================================================= *)
(** * Listing the fields of an object *)

Section ListFieldsFacts.

Context {S : Type}.
Variable handle : request -> S -> response * S.

Lemma owned_by_filter (oid : json) (all l : list json) :
  ApplySchema.owned_by oid all = OK l -> l = filter (owner_is oid) all.
Proof.
  revert l. induction all as [|f all IH]; simpl; intros l H.
  - now injection H as <-.
  - unfold owner_is at 1. unfold rbind in H.
    destruct (Py.get f "objectMetadataId" JNull) as [owner|]; [|discriminate].
    destruct (ApplySchema.owned_by oid all) as [rest|]; [|discriminate].
    injection H as <-. rewrite (IH rest eq_refl).
    now destruct (Py.eq owner oid).
Qed.

Lemma filter_forallb {A : Type} (p : A -> bool) (l : list A) :
  forallb p (filter p l) = true.
Proof.
  induction l as [|x l IH]; simpl; [reflexivity|].
  destruct (p x) eqn:E; simpl; [now rewrite E|assumption].
Qed.

(** [list_fields] of apply_twenty_schema.py: whatever listing the gateway
    returns, the result is the part of it owned by the given object. *)
Lemma list_fields_owned (oid : json) (w : world S) :
  match ApplySchema.list_fields handle oid w with
  | (OK l, w1) =>
      exists res all,
        http handle GET MetadataFields [] None w = (OK res, w1)
        /\ ApplySchema.fields_listing res = OK all
        /\ l = filter (owner_is oid) all
        /\ forallb (owner_is oid) l = true
  | (Raise _, _) => True
  end.
Proof.
  unfold ApplySchema.list_fields, bind, lift.
  destruct (http handle GET MetadataFields [] None w) as [[res|e] w1]; [|exact I].
  destruct (ApplySchema.fields_listing res) as [all|e] eqn:L; [|exact I].
  destruct (ApplySchema.owned_by oid all) as [l|e] eqn:O; [|exact I].
  exists res, all. apply owned_by_filter in O. subst l.
  split; [reflexivity|]. split; [exact L|]. split; [reflexivity|].
  apply filter_forallb.
Qed.

(** [get_fields_for_object] of main.py returns the listing as it comes. *)
Lemma get_fields_for_object_unfiltered (oid : json) (w : world S) res w1 :
  http handle GET MetadataFields [("objectMetadataId", oid)] None w = (OK res, w1) ->
  Main.get_fields_for_object handle oid w = (Main.fields_payload res, w1).
Proof.
  intro H. unfold Main.get_fields_for_object.
  now rewrite (bind_step _ _ _ _ _ H).
Qed.

End ListFieldsFacts.

(** C6, on main.py.  The store holds one field, ["name"], owned by object
    ["B"], and returns its full field listing.  Asked for the fields of
    object ["A"], [get_fields_for_object] returns that field, and
    [ensure_fields] then takes column ["name"] of ["A"] for existing: it
    issues no create call.  [list_fields] of apply_twenty_schema.py returns
    no field for the same object and the same store. *)
Theorem get_fields_for_object_leaks_other_objects :
  let other := JDict [("name", JStr "name"); ("objectMetadataId", JStr "B")] in
  let r := Store.mkRemote [] [other] in
  fst (run (Main.get_fields_for_object plain_store (JStr "A")) r)
  = OK (JList [other])
  /\ owner_is (JStr "A") other = false
  /\ (forall is_int,
         count is_create
           (calls (snd (run (Main.ensure_fields plain_store is_int (JStr "A")
                               ["name"] [("name", [SStr "x"])]) r))) = 0)
  /\ fst (run (ApplySchema.list_fields plain_store (JStr "A")) r) = OK [].
Proof. repeat split. Qed.

(* ================================================================= *)
(** * The existence check *)

Section KnownFieldFacts.

Context {S : Type}.
Variable handle : request -> S -> response * S.

Lemma camel_if_underscore_str (s : string) :
  ApplySchema.camel_if_underscore (JStr s) = OK (JStr (canonical_name s)).
Proof.
  unfold ApplySchema.camel_if_underscore, canonical_name. simpl.
  now destruct (Text.has_underscore (Text.of_string s)).
Qed.

Lemma lookup_app_some (k : string) (d e : dict) v :
  Py.lookup k d = Some v -> Py.lookup k (d ++ e) = Some v.
Proof.
  induction d as [|[k' x] d IH]; simpl; [discriminate|].
  destruct (k' =? k); auto.
Qed.

Lemma full_payload_str (oid : json) (d : dict) (s : string) (ty : json) :
  Py.lookup "name" d = Some (JStr s) ->
  Py.lookup "type" d = Some ty ->
  exists payload,
    ApplySchema.full_payload oid (JDict d) = OK payload
    /\ Py.lookup "name" payload = Some (JStr (canonical_name s))
    /\ Py.lookup "objectMetadataId" payload = Some oid.
Proof.
  intros Hn Ht. unfold ApplySchema.full_payload, ApplySchema.minimal_payload.
  cbn [Py.getitem Py.get]. rewrite Hn, Ht. cbn [rbind].
  rewrite camel_if_underscore_str. cbn [rbind].
  eexists. split; [reflexivity|]. split; reflexivity.
Qed.


End KnownFieldFacts.

(** C3, as stated, fails from camel to snake.  The remote object ["deal"]
    has the field ["deal_value"]; the schema declares ["dealValue"].  The
    check does not find it and a second field is created. *)
Lemma camel_declared_snake_remote_duplicates :
  let deal := JDict [("id", JStr "deal-1"); ("nameSingular", JStr "deal")] in
  let snake := JDict [("name", JStr "deal_value"); ("objectMetadataId", JStr "deal-1")] in
  let r := Store.mkRemote [deal] [snake] in
  let schema :=
    JDict [("objects",
            JList [JDict [("nameSingular", JStr "deal");
                          ("fields",
                           JList [JDict [("name", JStr "dealValue");
                                         ("type", JStr "NUMBER")]])]])] in
  let out := run (ApplySchema.apply_schema plain_store schema) r in
  known_field "dealValue" [JStr "deal_value"] = false
  /\ fst out = OK tt
  /\ count is_create (calls (snd out)) = 1
  /\ map (fun f => Py.get f "name" JNull) (Store.fields (server (snd out)))
     = [OK (JStr "deal_value"); OK (JStr "dealValue")].
Proof. repeat split. Qed.

(* ================================================================= *)
(** * Equality of values *)

Section JsonInduction.

Variable P : json -> Prop.
Hypothesis on_atom : forall a, P (JAtom a).
Hypothesis on_list : forall l, Forall P l -> P (JList l).
Hypothesis on_dict : forall d, Forall (fun kv => P (snd kv)) d -> P (JDict d).

Fixpoint json_induction (v : json) : P v :=
  match v with
  | JAtom a => on_atom a
  | JList l =>
      on_list l
        ((fix all (l : list json) : Forall P l :=
            match l with
            | [] => Forall_nil P
            | x :: l' => Forall_cons x (json_induction x) (all l')
            end) l)
  | JDict d =>
      on_dict d
        ((fix all (d : list (string * json)) : Forall (fun kv => P (snd kv)) d :=
            match d with
            | [] => Forall_nil _
            | kv :: d' => Forall_cons kv (json_induction (snd kv)) (all d')
            end) d)
  end.

End JsonInduction.

Lemma eq_scalar_refl (a : scalar) : Py.eq_scalar a a = true.
Proof.
  destruct a as [| b | n | r | s]; simpl.
  - reflexivity.
  - apply Bool.eqb_reflx.
  - apply Z.eqb_refl.
  - now rewrite String.eqb_refl.
  - apply String.eqb_refl.
Qed.

Lemma eq_refl_json (v : json) : Py.eq v v = true.
Proof.
  induction v as [a | l IH | d IH] using json_induction.
  - apply eq_scalar_refl.
  - simpl. induction IH as [|x l Hx _ IHl]; [reflexivity|].
    now rewrite Hx, IHl.
  - simpl. induction IH as [|[k x] d Hx _ IHd]; [reflexivity|].
    simpl in Hx. now rewrite String.eqb_refl, Hx, IHd.
Qed.

(* ================================================================= *)
(** * The store behind the session *)

Section StoreFacts.

Variable shape : Store.listing_shape.
Variable honours_filter : bool.
Variable new_id : Store.remote -> json.
Variable faults : request -> Store.remote -> option Store.fault.

Let h := Store.handle shape honours_filter new_id faults.

Lemma objects_payload_render (l : list json) :
  objects_payload (Store.render shape "objects" l) = OK (JList l).
Proof. now destruct shape. Qed.

Lemma fields_listing_render (l : list json) :
  ApplySchema.fields_listing (Store.render shape "fields" l) = OK l.
Proof. now destruct shape. Qed.

Lemma fault_refused (m : http_method) (p : endpoint) q b (f : Store.fault)
    (w : world Store.remote) :
  faults (mkRequest m p q b) (server w) = Some f ->
  http h m p q b w
  = (Raise (fault_exn m p f), mkWorld (server w) (calls w ++ [mkRequest m p q b])).
Proof.
  intro H. unfold http, h, Store.handle. rewrite H.
  destruct f as [st|]; simpl; [|reflexivity].
  assert ((400 <=? Z.max 400 st)%Z = true) as -> by (apply Z.leb_le; lia).
  reflexivity.
Qed.

(** Listing the objects: the answer is the objects of the store, and the
    store is left as it is. *)
Lemma find_object_by_singular_store (name : json) (w : world Store.remote) :
  ApplySchema.find_object_by_singular h name w
  = (match faults list_objects_call (server w) with
     | Some f => Raise (fault_exn GET MetadataObjects f)
     | None => first_named name (Store.objects (server w))
     end,
     mkWorld (server w) (calls w ++ [list_objects_call])).
Proof.
  unfold ApplySchema.find_object_by_singular, ApplySchema.list_objects.
  destruct (faults list_objects_call (server w)) as [f|] eqn:F.
  - unfold bind at 1. unfold bind at 1.
    unfold list_objects_call in F. now rewrite (fault_refused _ _ _ _ _ _ F).
  - unfold bind, http, h, Store.handle. fold list_objects_call. rewrite F.
    cbn. rewrite objects_payload_render. reflexivity.
Qed.

(** Listing the fields of an object: the part of the store's fields that
    it owns. *)
Lemma list_fields_store (oid : json) (w : world Store.remote) :
  ApplySchema.list_fields h oid w
  = (match faults list_fields_call (server w) with
     | Some f => Raise (fault_exn GET MetadataFields f)
     | None => ApplySchema.owned_by oid (Store.fields (server w))
     end,
     mkWorld (server w) (calls w ++ [list_fields_call])).
Proof.
  unfold ApplySchema.list_fields.
  destruct (faults list_fields_call (server w)) as [f|] eqn:F.
  - unfold bind at 1.
    unfold list_fields_call in F. now rewrite (fault_refused _ _ _ _ _ _ F).
  - unfold bind, http, h, Store.handle. fold list_fields_call. rewrite F.
    cbn. rewrite fields_listing_render. reflexivity.
Qed.

(** Posting a field: turned down, or stored under a new identifier. *)
Lemma post_field_store (p : dict) (w : world Store.remote) :
  ApplySchema.post_field h p w
  = match faults (field_call p) (server w) with
    | Some f =>
        (Raise (fault_exn POST MetadataFields f),
         mkWorld (server w) (calls w ++ [field_call p]))
    | None =>
        let stored := JDict (("id", new_id (server w)) :: p) in
        (OK stored,
         mkWorld (Store.mkRemote (Store.objects (server w))
                    (Store.fields (server w) ++ [stored]))
           (calls w ++ [field_call p]))
    end.
Proof.
  unfold ApplySchema.post_field.
  destruct (faults (field_call p) (server w)) as [f|] eqn:F.
  - unfold field_call in F. now rewrite (fault_refused _ _ _ _ _ _ F).
  - unfold http, h, Store.handle. fold (field_call p). rewrite F. reflexivity.
Qed.

(** Posting an object. *)
Lemma post_object_store (d : dict) (w : world Store.remote) :
  let req := mkRequest POST MetadataObjects [] (Some (JDict d)) in
  http h POST MetadataObjects [] (Some (JDict d)) w
  = match faults req (server w) with
    | Some f =>
        (Raise (fault_exn POST MetadataObjects f),
         mkWorld (server w) (calls w ++ [req]))
    | None =>
        let stored :=
          JDict (("id", new_id (server w)) :: ("isCustom", JBool true) :: d) in
        (OK stored,
         mkWorld (Store.mkRemote (Store.objects (server w) ++ [stored])
                    (Store.fields (server w)))
           (calls w ++ [req]))
    end.
Proof.
  intro req.
  destruct (faults req (server w)) as [f|] eqn:F.
  - unfold req in F. now rewrite (fault_refused _ _ _ _ _ _ F).
  - unfold http, h, Store.handle. fold req. rewrite F. reflexivity.
Qed.

End StoreFacts.

(* ================================================================= *)
(** * Listings that grow *)

Lemma first_named_app (name : json) (l l' : list json) (o : json) :
  first_named name l = OK o -> Py.truthy o = true ->
  first_named name (l ++ l') = OK o.
Proof.
  induction l as [|x l IH]; simpl; intros H T.
  - injection H as <-. discriminate.
  - unfold rbind in *. destruct (Py.get x "nameSingular" JNull) as [v|]; [|discriminate].
    destruct (Py.eq v name); [assumption | auto].
Qed.

Lemma owned_by_app (oid : json) (a b : list json) :
  ApplySchema.owned_by oid (a ++ b)
  = (la <~ ApplySchema.owned_by oid a ;;
     lb <~ ApplySchema.owned_by oid b ;;
     OK (la ++ lb)).
Proof.
  induction a as [|f a IH]; simpl.
  - unfold rbind. now destruct (ApplySchema.owned_by oid b).
  - unfold rbind in *. destruct (Py.get f "objectMetadataId" JNull) as [o|]; [|reflexivity].
    rewrite IH. destruct (ApplySchema.owned_by oid a) as [la|]; [|reflexivity].
    destruct (ApplySchema.owned_by oid b) as [lb|]; [|reflexivity].
    now destruct (Py.eq o oid).
Qed.

Lemma field_names_app (a b : list json) :
  field_names (a ++ b)
  = (na <~ field_names a ;; nb <~ field_names b ;; OK (na ++ nb)).
Proof.
  induction a as [|f a IH]; simpl.
  - unfold rbind. now destruct (field_names b).
  - unfold rbind in *. destruct (Py.get f "name" JNull) as [n|]; [|reflexivity].
    destruct (Py.hashable n); [|reflexivity].
    rewrite IH. destruct (field_names a) as [na|]; [|reflexivity].
    now destruct (field_names b).
Qed.

Lemma good_field_dict (f : json) :
  good_field f = true ->
  exists d, f = JDict d /\ Py.hashable (name_of f) = true.
Proof.
  unfold good_field. intro H. apply andb_true_iff in H. destruct H as [D H].
  destruct f as [a|l|d]; try discriminate. eauto.
Qed.

Lemma owned_by_good (oid : json) (fs : list json) :
  forallb good_field fs = true ->
  exists l, ApplySchema.owned_by oid fs = OK l /\ forallb good_field l = true.
Proof.
  induction fs as [|f fs IH]; simpl; intro H; [eauto|].
  apply andb_true_iff in H. destruct H as [Hf Hfs].
  destruct (IH Hfs) as [l [E G]]. rewrite E.
  destruct (good_field_dict f Hf) as [d [-> _]]. cbn [Py.get rbind].
  eexists. split; [reflexivity|].
  destruct (Py.eq _ oid); simpl; [now rewrite Hf|assumption].
Qed.

Lemma field_names_good (l : list json) :
  forallb good_field l = true -> exists ns, field_names l = OK ns.
Proof.
  induction l as [|f l IH]; simpl; intro H; [eauto|].
  apply andb_true_iff in H. destruct H as [Hf Hl].
  destruct (IH Hl) as [ns E]. rewrite E.
  destruct (good_field_dict f Hf) as [d [-> Hh]].
  unfold name_of in Hh. cbn [Py.get] in Hh |- *. cbn [rbind]. rewrite Hh.
  eauto.
Qed.

Lemma field_names_map (l names : list json) :
  field_names l = OK names -> names = map name_of l.
Proof.
  revert names. induction l as [|f l IH]; simpl; intros names H.
  - now injection H as <-.
  - unfold rbind in H. unfold name_of at 1.
    destruct (Py.get f "name" JNull) as [n|]; [|discriminate].
    destruct (Py.hashable n); [|discriminate].
    destruct (field_names l) as [ns|]; [|discriminate].
    injection H as <-. now rewrite (IH ns eq_refl).
Qed.

(** Membership in the set of names, read on the fields themselves. *)
Lemma mem_has_name (oid : json) (fs owned names : list json) (x : json) :
  ApplySchema.owned_by oid fs = OK owned ->
  field_names owned = OK names ->
  Py.mem x names = true <-> has_name oid fs x.
Proof.
  intros O N. apply owned_by_filter in O. apply field_names_map in N.
  subst. unfold Py.mem, has_name. rewrite existsb_exists. split.
  - intros [n [Hin E]]. apply in_map_iff in Hin. destruct Hin as [f [<- Hf]].
    apply filter_In in Hf. destruct Hf as [Hf Ho]. eauto.
  - intros [f [Hf [Ho E]]]. exists (name_of f). split; [|assumption].
    apply in_map. apply filter_In. auto.
Qed.

Lemma has_name_app (oid : json) (fs more : list json) (x : json) :
  has_name oid fs x -> has_name oid (fs ++ more) x.
Proof.
  intros [f [Hf H]]. exists f. split; [apply in_or_app; auto | assumption].
Qed.

Lemma field_settled_app (oid : json) (fs more : list json) (f : json) :
  field_settled oid fs f -> field_settled oid (fs ++ more) f.
Proof.
  intros [fname [fcamel [Hn [Hc [Hh H]]]]]. exists fname, fcamel.
  repeat split; try assumption.
  destruct H as [H|[Hh' H]]; [left | right; split; [assumption|]];
    now apply has_name_app.
Qed.

Lemma later_refl (r : Store.remote) : later r r.
Proof. exists [], []. now rewrite !app_nil_r. Qed.

Lemma later_trans (r1 r2 r3 : Store.remote) :
  later r1 r2 -> later r2 r3 -> later r1 r3.
Proof.
  intros [os [fs [O [F G]]]] [os' [fs' [O' [F' G']]]].
  exists (os ++ os'), (fs ++ fs'). rewrite O', F', O, F, !app_assoc.
  repeat split. rewrite forallb_app, G, G'. reflexivity.
Qed.

(* ================================================================= *)
(** * A declared field *)

Section FieldFacts.

Context {S : Type}.
Variable handle : request -> S -> response * S.

(** A settled field makes no call, whatever the session. *)
Lemma field_settled_known (oid : json) (fs owned names : list json) (f : json)
    (w : world S) :
  field_settled oid fs f ->
  ApplySchema.owned_by oid fs = OK owned ->
  field_names owned = OK names ->
  ApplySchema.apply_schema_field handle oid names f w = (OK tt, w).
Proof.
  intros [fname [fcamel [Hn [Hc [Hh H]]]]] O N.
  unfold ApplySchema.apply_schema_field.
  rewrite Hn. cbn [lift bind]. rewrite Hc. cbn [lift bind].
  unfold Py.in_set. rewrite Hh. cbn [lift bind].
  destruct (Py.mem fname names) eqn:M1; cbn [ret bind]; [reflexivity|].
  destruct H as [H|[Hh' H]].
  - apply (mem_has_name oid fs owned names fname O N) in H. congruence.
  - rewrite Hh'. cbn [lift bind].
    apply (mem_has_name oid fs owned names fcamel O N) in H. now rewrite H.
Qed.

End FieldFacts.

(* ================================================================= *)
(** * Payload tiers agree on name and owner *)

Lemma lookup_without (k key : string) (d : dict) :
  (key =? k) = false -> Py.lookup k (Py.without key d) = Py.lookup k d.
Proof.
  intro Hk. unfold Py.without.
  induction d as [|[k' v] d IH]; simpl; [reflexivity|].
  destruct (k' =? key) eqn:E; simpl.
  - apply String.eqb_eq in E. subst k'. now rewrite Hk.
  - now rewrite IH.
Qed.

Lemma minimal_payload_entries (oid f : json) (minimal : dict) :
  ApplySchema.minimal_payload oid f = OK minimal ->
  exists raw fcamel,
    Py.getitem f "name" = OK raw
    /\ ApplySchema.camel_if_underscore raw = OK fcamel
    /\ Py.lookup "name" minimal = Some fcamel
    /\ Py.lookup "objectMetadataId" minimal = Some oid.
Proof.
  unfold ApplySchema.minimal_payload, rbind.
  destruct (Py.getitem f "name") as [raw|] eqn:Hr; [|discriminate].
  destruct (ApplySchema.camel_if_underscore raw) as [fcamel|] eqn:Hc;
    [|discriminate].
  destruct (Py.getitem f "type"); [|discriminate].
  destruct (Py.get f "label" raw); [|discriminate].
  intros [= <-]. exists raw, fcamel. repeat split; assumption.
Qed.

Lemma payload_tiers_entries (oid f : json) (payload minimal : dict) :
  ApplySchema.full_payload oid f = OK payload ->
  ApplySchema.minimal_payload oid f = OK minimal ->
  forall p, In p (payload_tiers payload minimal) ->
            Py.lookup "name" p = Py.lookup "name" minimal
            /\ Py.lookup "objectMetadataId" p = Some oid.
Proof.
  intros Hfull Hmin.
  destruct (full_payload_minimal _ _ _ Hfull) as [m [d [Hm [_ ->]]]].
  rewrite Hmin in Hm. injection Hm as <-.
  destruct (minimal_payload_entries _ _ _ Hmin) as [raw [fcamel [_ [_ [Hn Ho]]]]].
  assert (full : Py.lookup "name" (minimal ++ ApplySchema.optional_entries d)
                 = Py.lookup "name" minimal
                 /\ Py.lookup "objectMetadataId" (minimal ++ ApplySchema.optional_entries d)
                    = Some oid).
  { rewrite Hn. split; now apply lookup_app_some. }
  intros p Hp. unfold payload_tiers in Hp.
  destruct (Py.has_key "icon" _); simpl in Hp;
    repeat (destruct Hp as [<-|Hp]; [|]); try contradiction;
    rewrite ?lookup_without by reflexivity; auto.
Qed.

(* ================================================================= *)
(** * One reconciliation run on the store *)

Section RunFacts.

Variable shape : Store.listing_shape.
Variable honours_filter : bool.
Variable new_id : Store.remote -> json.
Variable faults : request -> Store.remote -> option Store.fault.

Let h := Store.handle shape honours_filter new_id faults.

(** Trying tiers against the store: nothing is stored unless a tier is
    accepted, and then that tier is stored. *)
Lemma tried_store (tiers : list dict) (w : world Store.remote) out :
  tried (ApplySchema.post_field h) tiers w out ->
  match fst out with
  | OK _ =>
      exists p,
        In p tiers
        /\ server (snd out)
           = Store.mkRemote (Store.objects (server w))
               (Store.fields (server w)
                ++ [JDict (("id", new_id (server w)) :: p)])
  | Raise _ => server (snd out) = server w
  end.
Proof.
  induction 1 as [p w | p rest w v w' E | p rest w e w' E R
                  | p rest w e w' out Hne E R Hrest IH];
    try (unfold h in E; rewrite post_field_store in E; fold h in E).
  - unfold h. rewrite post_field_store.
    destruct (faults _ _); simpl; [reflexivity|]. exists p. simpl. auto.
  - destruct (faults _ _); [discriminate|]. injection E as _ <-.
    simpl. exists p. simpl. auto.
  - destruct (faults _ _); [|discriminate]. now injection E as _ <-.
  - destruct (faults _ _); [|discriminate]. injection E as _ <-.
    simpl in IH. destruct (fst out); [|assumption].
    destruct IH as [q [Hq Hs]]. exists q. simpl. auto.
Qed.

Lemma create_field_store (oid f : json) (w w' : world Store.remote) (v : json) :
  ApplySchema.create_field h oid f w = (OK v, w') ->
  exists raw fcamel stored,
    Py.getitem f "name" = OK raw
    /\ ApplySchema.camel_if_underscore raw = OK fcamel
    /\ Py.is_dict stored = true
    /\ name_of stored = fcamel
    /\ owner_is oid stored = true
    /\ server w'
       = Store.mkRemote (Store.objects (server w))
           (Store.fields (server w) ++ [stored]).
Proof.
  intro C.
  destruct (ApplySchema.full_payload oid f) as [payload|e] eqn:Hfull;
    [|unfold ApplySchema.create_field in C; rewrite Hfull in C; discriminate].
  destruct (full_payload_minimal _ _ _ Hfull) as [minimal [d [Hmin _]]].
  pose proof (create_field_tried h oid f payload minimal w Hfull Hmin) as T.
  apply tried_store in T. rewrite C in T. simpl in T.
  destruct T as [p [Hp Hs]].
  destruct (payload_tiers_entries _ _ _ _ Hfull Hmin p Hp) as [Hn Ho].
  destruct (minimal_payload_entries _ _ _ Hmin) as [raw [fcamel [Hr [Hc [Hm _]]]]].
  exists raw, fcamel, (JDict (("id", new_id (server w)) :: p)).
  repeat split; try assumption.
  - unfold name_of. cbn. now rewrite Hn, Hm.
  - unfold owner_is. cbn. rewrite Ho. apply eq_refl_json.
Qed.

(** A declared field, first run: it was there, or it is created as a good
    field of the object; either way it is settled afterwards. *)
Lemma field_step (oid : json) (names : list json) (f : json)
    (w w' : world Store.remote) :
  ApplySchema.apply_schema_field h oid names f w = (OK tt, w') ->
  (forall x, Py.mem x names = true -> has_name oid (Store.fields (server w)) x) ->
  later (server w) (server w')
  /\ Store.objects (server w') = Store.objects (server w)
  /\ field_settled oid (Store.fields (server w')) f.
Proof.
  intros H Sound. unfold ApplySchema.apply_schema_field in H.
  destruct (Py.getitem f "name") as [fname|] eqn:Hn; [|discriminate].
  cbn [lift bind] in H.
  destruct (ApplySchema.camel_if_underscore fname) as [fcamel|] eqn:Hc;
    [|discriminate].
  cbn [lift bind] in H. unfold Py.in_set in H.
  destruct (Py.hashable fname) eqn:Hh; [|discriminate].
  cbn [lift bind] in H.
  destruct (Py.mem fname names) eqn:M1; cbn [ret bind] in H.
  { injection H as <-. split; [apply later_refl|]. split; [reflexivity|].
    exists fname, fcamel. repeat split; auto. }
  destruct (Py.hashable fcamel) eqn:Hh2; [|discriminate].
  cbn [lift bind] in H.
  destruct (Py.mem fcamel names) eqn:M2.
  { injection H as <-. split; [apply later_refl|]. split; [reflexivity|].
    exists fname, fcamel. repeat split; auto. }
  destruct (Py.getitem f "type"); [|discriminate].
  cbn [lift bind] in H. unfold bind, ret in H.
  destruct (ApplySchema.create_field h oid f w) as [[v|e] w1] eqn:C;
    [|discriminate].
  injection H as <-.
  destruct (create_field_store _ _ _ _ _ C)
    as [raw [fc [stored [Hr [Hfc [Hd [Hname [Hown Hs]]]]]]]].
  rewrite Hn in Hr. injection Hr as <-. rewrite Hc in Hfc. injection Hfc as <-.
  rewrite Hs. cbn [Store.objects Store.fields].
  split.
  { exists [], [stored]. cbn [Store.objects Store.fields].
    rewrite app_nil_r. repeat split.
    unfold good_field. cbn [forallb]. now rewrite Hd, Hname, Hh2. }
  split; [reflexivity|].
  exists fname, fcamel. repeat split; auto.
  right. split; [assumption|].
  exists stored. split; [apply in_or_app; right; now left|].
  split; [assumption|]. rewrite Hname. apply eq_refl_json.
Qed.

Lemma fields_loop (oid : json) (names : list json) (fs : list json) :
  forall (w w' : world Store.remote),
    for_each fs (ApplySchema.apply_schema_field h oid names) w = (OK tt, w') ->
    (forall x, Py.mem x names = true -> has_name oid (Store.fields (server w)) x) ->
    later (server w) (server w')
    /\ Store.objects (server w') = Store.objects (server w)
    /\ Forall (field_settled oid (Store.fields (server w'))) fs.
Proof.
  induction fs as [|f fs IH]; intros w w' H Sound; cbn [for_each] in H.
  - injection H as <-. split; [apply later_refl|]. auto.
  - apply bind_ok_inv in H. destruct H as [[] [w1 [Hf Hrest]]].
    destruct (field_step _ _ _ _ _ Hf Sound) as [L1 [O1 S1]].
    assert (Sound1 : forall x, Py.mem x names = true ->
                               has_name oid (Store.fields (server w1)) x).
    { intros x Hx. destruct L1 as [os [more [_ [-> _]]]].
      apply has_name_app. auto. }
    destruct (IH _ _ Hrest Sound1) as [L2 [O2 S2]].
    split; [eapply later_trans; eassumption|].
    split; [congruence|].
    constructor; [|assumption].
    destruct L2 as [os [more [_ [-> _]]]]. now apply field_settled_app.
Qed.

End RunFacts.

Lemma reads_refl {S : Type} (w : world S) : reads w w.
Proof. split; [reflexivity|]. exists []. now rewrite app_nil_r. Qed.

Lemma reads_trans {S : Type} (w1 w2 w3 : world S) :
  reads w1 w2 -> reads w2 w3 -> reads w1 w3.
Proof.
  intros [S1 [n1 [C1 G1]]] [S2 [n2 [C2 G2]]]. split; [congruence|].
  exists (n1 ++ n2). rewrite C2, C1, app_assoc, forallb_app, G1, G2. auto.
Qed.

Lemma reads_get {S : Type} (w : world S) (req : request) :
  is_mutation req = false -> reads w (mkWorld (server w) (calls w ++ [req])).
Proof.
  intro H. split; [reflexivity|]. exists [req]. simpl. now rewrite H.
Qed.

Lemma reads_counts {S : Type} (s : S) (w' : world S) :
  reads (mkWorld s []) w' ->
  server w' = s
  /\ count is_mutation (calls w') = 0
  /\ count is_create (calls w') = 0.
Proof.
  intros [Hs [new [Hc Hg]]]. simpl in Hs, Hc. subst new.
  split; [assumption|]. unfold count.
  induction (calls w') as [|c l IH]; simpl in *; [auto|].
  apply andb_true_iff in Hg. destruct Hg as [Hc Hl].
  destruct (IH Hl) as [IH1 IH2].
  apply negb_true_iff in Hc. rewrite Hc.
  assert (is_create c = false) as ->.
  { unfold is_create, is_mutation in *. now destruct (method c). }
  auto.
Qed.

Section ObjectFacts.

Variable shape : Store.listing_shape.
Variable honours_filter : bool.
Variable new_id : Store.remote -> json.
Variable faults : request -> Store.remote -> option Store.fault.

Let h := Store.handle shape honours_filter new_id faults.

Lemma create_object_store (obj : json) (w w' : world Store.remote) (v : json) :
  ApplySchema.create_object h obj w = (OK v, w') ->
  exists o,
    server w'
    = Store.mkRemote (Store.objects (server w) ++ [o]) (Store.fields (server w)).
Proof.
  unfold ApplySchema.create_object.
  cbn [lift bind].
  destruct (Py.getitem obj "nameSingular"); [|discriminate].
  destruct (Py.getitem obj "namePlural"); [|discriminate].
  destruct (Py.getitem obj "labelSingular"); [|discriminate].
  destruct (Py.getitem obj "labelPlural"); [|discriminate].
  destruct (Py.get obj "description" (JStr "")); [|discriminate].
  destruct (Py.get obj "icon" (JStr "")); [|discriminate].
  unfold h. rewrite post_object_store.
  destruct (faults _ _); [discriminate|].
  intros [= _ <-]. simpl. eauto.
Qed.

Lemma object_settled_later (r r' : Store.remote) (obj : json) :
  object_settled r obj -> later r r' -> object_settled r' obj.
Proof.
  intros [ns [existing [oid [owned [names [declared [fs
            [Hns [Hfind [Ht [Hid [Ho [Hn [Hd [Hi Hf]]]]]]]]]]]]]]]
         [os [more [HO [HF G]]]].
  destruct (owned_by_good oid more G) as [lm [Em Gm]].
  destruct (field_names_good lm Gm) as [nm En].
  exists ns, existing, oid, (owned ++ lm), (names ++ nm), declared, fs.
  repeat split; try assumption.
  - rewrite HO. now apply first_named_app.
  - rewrite HF, owned_by_app, Ho, Em. reflexivity.
  - rewrite field_names_app, Hn, En. reflexivity.
  - rewrite HF. eapply Forall_impl; [|exact Hf].
    intros f. apply field_settled_app.
Qed.

(** A declared object, first run: afterwards the store holds it and its
    declared fields. *)
Lemma object_step (obj : json) (w w' : world Store.remote) :
  ApplySchema.apply_schema_object h obj w = (OK tt, w') ->
  later (server w) (server w') /\ object_settled (server w') obj.
Proof.
  intro H. unfold ApplySchema.apply_schema_object in H.
  destruct (Py.getitem obj "nameSingular") as [ns|] eqn:Hns; [|discriminate].
  cbn [lift bind] in H.
  apply bind_ok_inv in H. destruct H as [found [w1 [Hfind H]]].
  unfold h in Hfind. rewrite find_object_by_singular_store in Hfind. fold h in Hfind.
  injection Hfind as Hfound <-.
  destruct (faults list_objects_call (server w)); [discriminate|].
  apply bind_ok_inv in H. destruct H as [existing [w2 [Hex H]]].
  assert (Ex : later (server w) (server w2)
               /\ first_named ns (Store.objects (server w2)) = OK existing
               /\ Py.truthy existing = true).
  { destruct (Py.truthy found) eqn:T; cbn [negb] in Hex.
    - destruct (Py.getitem found "id"); [|discriminate].
      cbn [lift bind ret] in Hex. injection Hex as <- <-. simpl.
      split; [apply later_refl|]. auto.
    - apply bind_ok_inv in Hex. destruct Hex as [v [wc [Hc Hex]]].
      apply create_object_store in Hc. destruct Hc as [o Hc]. simpl in Hc.
      apply bind_ok_inv in Hex. destruct Hex as [again [wf [Hagain Hex]]].
      unfold h in Hagain. rewrite find_object_by_singular_store in Hagain.
      fold h in Hagain. injection Hagain as Hagain <-.
      destruct (faults list_objects_call (server wc)); [discriminate|].
      destruct (Py.truthy again) eqn:T2; cbn [negb] in Hex; [|discriminate].
      unfold ret in Hex. injection Hex as <- <-. simpl.
      split; [|split; assumption].
      exists [o], []. rewrite Hc. simpl. now rewrite app_nil_r. }
  destruct Ex as [L1 [Hfirst Htruthy]].
  destruct (Py.getitem existing "id") as [oid|] eqn:Hid; [|discriminate].
  cbn [lift bind] in H.
  apply bind_ok_inv in H. destruct H as [owned [w3 [Hlist H]]].
  unfold h in Hlist. rewrite list_fields_store in Hlist. fold h in Hlist.
  injection Hlist as Howned <-.
  destruct (faults list_fields_call (server w2)); [discriminate|].
  destruct (field_names owned) as [names|] eqn:Hnames; [|discriminate].
  cbn [lift bind] in H.
  destruct (Py.sortable names); cbn [negb] in H; [|discriminate].
  destruct (Py.get obj "fields" (JList [])) as [declared|] eqn:Hd; [|discriminate].
  cbn [lift bind] in H.
  destruct (Py.iter declared) as [fs|] eqn:Hi; [|discriminate].
  cbn [lift bind] in H.
  apply fields_loop in H.
  2:{ intros x Hx. simpl.
      now apply (mem_has_name oid (Store.fields (server w2)) owned names x). }
  simpl in H. destruct H as [L2 [HO HS]].
  split; [eapply later_trans; eassumption|].
  destruct L2 as [os [more [_ [HF G]]]].
  destruct (owned_by_good oid more G) as [lm [Em Gm]].
  destruct (field_names_good lm Gm) as [nm En].
  exists ns, existing, oid, (owned ++ lm), (names ++ nm), declared, fs.
  repeat split; try assumption.
  - now rewrite HO.
  - rewrite HF, owned_by_app, Howned, Em. reflexivity.
  - rewrite field_names_app, Hnames, En. reflexivity.
Qed.

Lemma for_each_settled (oid : json) (all owned names fs : list json)
    (w : world Store.remote) :
  Forall (field_settled oid all) fs ->
  ApplySchema.owned_by oid all = OK owned ->
  field_names owned = OK names ->
  for_each fs (ApplySchema.apply_schema_field h oid names) w = (OK tt, w).
Proof.
  intros Hf O N. induction Hf as [|f fs Hf _ IH]; [reflexivity|].
  cbn [for_each]. erewrite bind_step; [exact IH|].
  eapply field_settled_known; eassumption.
Qed.

Ltac benign_end :=
  first [ left; reflexivity
        | right; left; reflexivity
        | right; right; eexists _, _; reflexivity ].

(** A settled object, any later run: only the two listings are called. *)
Lemma object_settled_reads (obj : json) (w : world Store.remote) :
  object_settled (server w) obj ->
  exists res w',
    ApplySchema.apply_schema_object h obj w = (res, w')
    /\ reads w w' /\ benign res.
Proof.
  intros [ns [existing [oid [owned [names [declared [fs
            [Hns [Hfind [Ht [Hid [Ho [Hn [Hd [Hi Hf]]]]]]]]]]]]]]].
  unfold ApplySchema.apply_schema_object.
  rewrite Hns. cbn [lift bind].
  unfold bind at 1. unfold h at 1. rewrite find_object_by_singular_store.
  fold h.
  destruct (faults list_objects_call (server w)).
  { eexists _, _. split; [reflexivity|].
    split; [now apply reads_get | benign_end]. }
  rewrite Hfind, Ht. cbn [negb]. rewrite Hid. cbn [lift bind ret].
  rewrite Hid. cbn [lift bind].
  unfold bind at 1. unfold h at 1. rewrite list_fields_store. fold h.
  cbn [server calls].
  assert (R : reads w (mkWorld (server w)
                         ((calls w ++ [list_objects_call]) ++ [list_fields_call]))).
  { eapply reads_trans; [apply (reads_get w list_objects_call); reflexivity|].
    apply (reads_get (mkWorld (server w) (calls w ++ [list_objects_call]))
             list_fields_call). reflexivity. }
  destruct (faults list_fields_call (server w)).
  { eexists _, _. split; [reflexivity|]. split; [exact R | benign_end]. }
  rewrite Ho, Hn. cbn [lift bind].
  destruct (Py.sortable names); cbn [negb raise].
  2:{ eexists _, _. split; [reflexivity|]. split; [exact R | benign_end]. }
  rewrite Hd. cbn [lift bind]. rewrite Hi. cbn [lift bind].
  erewrite for_each_settled; eauto.
  eexists _, _. split; [reflexivity|]. split; [exact R | benign_end].
Qed.

Lemma objects_loop (objs : list json) :
  forall (w w' : world Store.remote),
    for_each objs (ApplySchema.apply_schema_object h) w = (OK tt, w') ->
    later (server w) (server w')
    /\ Forall (object_settled (server w')) objs.
Proof.
  induction objs as [|obj objs IH]; intros w w' H; cbn [for_each] in H.
  - injection H as <-. split; [apply later_refl | constructor].
  - apply bind_ok_inv in H. destruct H as [[] [w1 [Hobj Hrest]]].
    destruct (object_step _ _ _ Hobj) as [L1 S1].
    destruct (IH _ _ Hrest) as [L2 S2].
    split; [eapply later_trans; eassumption|].
    constructor; [|assumption].
    eapply object_settled_later; eassumption.
Qed.

Lemma objects_loop_reads (objs : list json) :
  forall (w : world Store.remote),
    Forall (object_settled (server w)) objs ->
    exists res w',
      for_each objs (ApplySchema.apply_schema_object h) w = (res, w')
      /\ reads w w' /\ benign res.
Proof.
  induction objs as [|obj objs IH]; intros w H; cbn [for_each].
  - exists (OK tt), w. split; [reflexivity|].
    split; [apply reads_refl | benign_end].
  - inversion H as [|? ? Hobj Hrest]; subst.
    destruct (object_settled_reads obj w Hobj) as [res [w1 [E [R B]]]].
    unfold bind. rewrite E. destruct res as [[]|e].
    + destruct (IH w1) as [res2 [w2 [E2 [R2 B2]]]];
        [destruct R as [-> _]; assumption|].
      exists res2, w2. split; [exact E2|].
      split; [eapply reads_trans; eassumption | exact B2].
    + exists (Raise e), w1. auto.
Qed.

(** After a first run of [apply_schema] that succeeds, a second run on the
    resulting store changes nothing. *)
Lemma apply_schema_second_run (schema : json) (r0 : Store.remote)
    (w1 : world Store.remote) :
  run (ApplySchema.apply_schema h schema) r0 = (OK tt, w1) ->
  changes_nothing (ApplySchema.apply_schema h schema) (server w1)
  /\ benign (fst (run (ApplySchema.apply_schema h schema) (server w1))).
Proof.
  unfold changes_nothing, run, ApplySchema.apply_schema. intro H.
  destruct (Py.get schema "objects" (JList [])) as [objects|]; [|discriminate].
  cbn [lift bind] in H |- *.
  destruct objects as [a|[|o os]|d]; try discriminate.
  apply objects_loop in H. destruct H as [_ Hsettled].
  destruct (objects_loop_reads (o :: os) (mkWorld (server w1) []) Hsettled)
    as [res [w2 [E [R B]]]].
  rewrite E. apply reads_counts in R. cbn [fst snd]. tauto.
Qed.

End ObjectFacts.

(* ================================================================= *)
(** * The CSV bootstrap on the store *)

Lemma field_names_mem (l names : list json) (x : json) :
  field_names l = OK names ->
  Py.mem x names = true <-> exists f, In f l /\ Py.eq x (name_of f) = true.
Proof.
  intro N. apply field_names_map in N. subst names.
  unfold Py.mem. rewrite existsb_exists. split.
  - intros [n [Hin E]]. apply in_map_iff in Hin. destruct Hin as [f [<- Hf]]. eauto.
  - intros [f [Hf E]]. exists (name_of f). split; [now apply in_map | assumption].
Qed.

Section BootstrapFacts.

Variable shape : Store.listing_shape.
Variable honours_filter : bool.
Variable new_id : Store.remote -> json.
Variable faults : request -> Store.remote -> option Store.fault.
Variable float_is_integer : scalar -> bool.

Let h := Store.handle shape honours_filter new_id faults.

Lemma fields_payload_render (l : list json) :
  Main.fields_payload (Store.render shape "fields" l) = OK (JList l).
Proof. now destruct shape. Qed.

(** What the store lists for an object: its own fields when the filter is
    honoured, all fields otherwise. *)
Let listing (oid : json) (r : Store.remote) : list json :=
  Store.listed_fields honours_filter [("objectMetadataId", oid)] r.

Lemma get_fields_for_object_store (oid : json) (w : world Store.remote) :
  Main.get_fields_for_object h oid w
  = (match faults (object_fields_call oid) (server w) with
     | Some f => Raise (fault_exn GET MetadataFields f)
     | None => OK (JList (listing oid (server w)))
     end,
     mkWorld (server w) (calls w ++ [object_fields_call oid])).
Proof.
  unfold Main.get_fields_for_object.
  destruct (faults (object_fields_call oid) (server w)) as [f|] eqn:F.
  - unfold bind, h. unfold object_fields_call in F.
    now rewrite (fault_refused _ _ _ _ _ _ _ _ _ _ F).
  - unfold bind, http, h, Store.handle. fold (object_fields_call oid). rewrite F.
    cbn. rewrite fields_payload_render. reflexivity.
Qed.

Lemma listing_app (oid : json) (r : Store.remote) (stored : json) :
  Store.owned oid stored = true ->
  listing oid (Store.mkRemote (Store.objects r) (Store.fields r ++ [stored]))
  = listing oid r ++ [stored].
Proof.
  intro H. unfold listing, Store.listed_fields. cbn.
  destruct honours_filter; [|reflexivity].
  rewrite filter_app. cbn. now rewrite H.
Qed.

(** A column, first run: its field was listed, or it is created and
    listed from then on. *)
Lemma ensure_field_step (oid : json) (names : list json) (df : Main.data_frame)
    (col : string) (w w' : world Store.remote) :
  Main.ensure_field h float_is_integer oid names df col w = (OK tt, w') ->
  (forall x, Py.mem x names = true ->
             exists f, In f (listing oid (server w)) /\ Py.eq x (name_of f) = true) ->
  (exists more,
      listing oid (server w') = listing oid (server w) ++ more
      /\ forallb good_field more = true)
  /\ column_settled (listing oid (server w')) col.
Proof.
  intros H Sound. unfold Main.ensure_field in H.
  destruct (Main.slugify col) as [slug|] eqn:Hs; [|discriminate].
  cbn [lift bind] in H.
  destruct (Py.mem (JStr slug) names) eqn:M.
  - injection H as <-. split.
    + exists []. now rewrite app_nil_r.
    + destruct (Sound _ M) as [f [Hf E]]. now exists slug, f.
  - destruct (Main.column col df) as [ser|]; [|discriminate].
    cbn [lift bind] in H. unfold bind, ret in H.
    unfold Main.create_field in H. cbn [Py.truthy Py.truthy_scalar] in H.
    match type of H with
    | context [http h POST MetadataFields [] (Some (JDict ?p))] =>
        change (http h POST MetadataFields [] (Some (JDict p)))
          with (ApplySchema.post_field h p) in H;
        unfold h in H; rewrite post_field_store in H; fold h in H
    end.
    destruct (faults _ _); [discriminate|].
    cbv zeta in H. injection H as <-. cbn [server].
    rewrite listing_app by (cbn; apply eq_refl_json).
    split.
    + eexists. split; reflexivity.
    + eexists slug, _. split; [exact Hs|]. split.
      * apply in_or_app. right. now left.
      * cbn. apply String.eqb_refl.
Qed.

Lemma ensure_fields_loop (oid : json) (names : list json) (df : Main.data_frame)
    (cols : list string) :
  forall (w w' : world Store.remote),
    for_each cols (Main.ensure_field h float_is_integer oid names df) w
    = (OK tt, w') ->
    (forall x, Py.mem x names = true ->
               exists f, In f (listing oid (server w)) /\ Py.eq x (name_of f) = true) ->
    (exists more,
        listing oid (server w') = listing oid (server w) ++ more
        /\ forallb good_field more = true)
    /\ Forall (column_settled (listing oid (server w'))) cols.
Proof.
  induction cols as [|col cols IH]; intros w w' H Sound; cbn [for_each] in H.
  - injection H as <-. split; [|constructor]. exists []. now rewrite app_nil_r.
  - apply bind_ok_inv in H. destruct H as [[] [w1 [Hc Hrest]]].
    destruct (ensure_field_step _ _ _ _ _ _ Hc Sound) as [[m1 [L1 G1]] S1].
    assert (Sound1 : forall x, Py.mem x names = true ->
                exists f, In f (listing oid (server w1))
                          /\ Py.eq x (name_of f) = true).
    { intros x Hx. destruct (Sound x Hx) as [f [Hf E]]. exists f.
      rewrite L1. split; [apply in_or_app; auto | assumption]. }
    destruct (IH _ _ Hrest Sound1) as [[m2 [L2 G2]] S2].
    split.
    + exists (m1 ++ m2). rewrite L2, L1, app_assoc, forallb_app, G1, G2. auto.
    + constructor; [|assumption].
      destruct S1 as [slug [f [Hs [Hf E]]]]. exists slug, f.
      rewrite L2. repeat split; auto. apply in_or_app. auto.
Qed.

Lemma ensure_fields_settled (oid : json) (names : list json)
    (df : Main.data_frame) (l : list json) (cols : list string)
    (w : world Store.remote) :
  Forall (column_settled l) cols ->
  field_names l = OK names ->
  for_each cols (Main.ensure_field h float_is_integer oid names df) w = (OK tt, w).
Proof.
  intros Hc N. induction Hc as [|col cols [slug [f [Hs [Hf E]]]] _ IH];
    [reflexivity|].
  cbn [for_each]. erewrite bind_step; [exact IH|].
  unfold Main.ensure_field. rewrite Hs. cbn [lift bind].
  assert (Py.mem (JStr slug) names = true) as ->; [|reflexivity].
  apply (field_names_mem l names (JStr slug) N). eauto.
Qed.

(** After a first run of [ensure_fields] that succeeds, a second run for
    the same object, columns and data changes nothing. *)
Lemma ensure_fields_second_run (oid : json) (cols : list string)
    (df : Main.data_frame) (r0 : Store.remote) (w1 : world Store.remote) :
  run (Main.ensure_fields h float_is_integer oid cols df) r0 = (OK tt, w1) ->
  changes_nothing (Main.ensure_fields h float_is_integer oid cols df) (server w1)
  /\ benign (fst (run (Main.ensure_fields h float_is_integer oid cols df)
                    (server w1))).
Proof.
  unfold changes_nothing, run, Main.ensure_fields. intro H.
  apply bind_ok_inv in H. destruct H as [existing [wa [Hg H]]].
  unfold h in Hg. rewrite get_fields_for_object_store in Hg. fold h in Hg.
  cbn [server calls] in Hg.
  destruct (faults (object_fields_call oid) r0); [discriminate|].
  injection Hg as <- <-. cbn [Py.iter lift bind] in H.
  destruct (field_names (listing oid r0)) as [names|] eqn:N; [|discriminate].
  cbn [lift bind] in H.
  apply ensure_fields_loop in H.
  2:{ intros x Hx. now apply (field_names_mem _ _ x N). }
  cbn [server] in H. destruct H as [[more [L G]] Hs].
  destruct (field_names_good more G) as [nm En].
  assert (N2 : field_names (listing oid (server w1)) = OK (names ++ nm)).
  { rewrite L, field_names_app, N, En. reflexivity. }
  cbv zeta.
  assert (R : exists res w2,
             (existing <- Main.get_fields_for_object h oid ;;
              fs <- lift (Py.iter existing) ;;
              existing_names <- lift (field_names fs) ;;
              for_each cols
                (Main.ensure_field h float_is_integer oid existing_names df))
               (mkWorld (server w1) []) = (res, w2)
             /\ reads (mkWorld (server w1) []) w2 /\ benign res).
  { unfold bind at 1. unfold h at 1. rewrite get_fields_for_object_store.
    cbn [server calls].
    destruct (faults (object_fields_call oid) (server w1)).
    - eexists _, _. split; [reflexivity|].
      split; [apply (reads_get (mkWorld (server w1) [])); reflexivity|].
      right; right; eexists _, _; reflexivity.
    - cbn [Py.iter lift bind]. rewrite N2. cbn [lift bind].
      erewrite ensure_fields_settled; eauto.
      eexists _, _. split; [reflexivity|].
      split; [apply (reads_get (mkWorld (server w1) [])); reflexivity|].
      now left. }
  destruct R as [res [w2 [E [R B]]]]. rewrite E.
  apply reads_counts in R. cbn [fst snd]. tauto.
Qed.

(** C1. Whatever the listing shape, the identifiers and the refusals of
    the store: after a first reconciliation run that succeeds, a second run
    against the same desired state and the resulting store issues no
    object-create and no field-create call, indeed no call other than
    [GET], and leaves the store as the first run left it; it ends well,
    or on a refused listing, or on the [TypeError] of the debug print of
    [apply_schema].  This holds for [apply_schema] and for
    [ensure_fields]. *)
Theorem reconciliation_idempotent :
  (forall (schema : json) (r0 : Store.remote) (w1 : world Store.remote),
      run (ApplySchema.apply_schema h schema) r0 = (OK tt, w1) ->
      changes_nothing (ApplySchema.apply_schema h schema) (server w1)
      /\ benign (fst (run (ApplySchema.apply_schema h schema) (server w1))))
  /\ (forall (oid : json) (cols : list string) (df : Main.data_frame)
             (r0 : Store.remote) (w1 : world Store.remote),
         run (Main.ensure_fields h float_is_integer oid cols df) r0 = (OK tt, w1) ->
         changes_nothing (Main.ensure_fields h float_is_integer oid cols df)
           (server w1)
         /\ benign (fst (run (Main.ensure_fields h float_is_integer oid cols df)
                           (server w1)))).
Proof.
  split.
  - apply apply_schema_second_run.
  - apply ensure_fields_second_run.
Qed.

End BootstrapFacts.

(* ================================================================= *)
(** * The theorems at work *)



(** C5 on a system object, with and without [--hard]. *)
Lemma main_refuses_non_custom_witness :
  let person := JDict [("id", JStr "obj-7"); ("nameSingular", JStr "person");
                       ("isCustom", JBool false)] in
  let r := Store.mkRemote [person] [] in
  let refused :=
    (Raise (RuntimeError "Refusing to delete non-custom object (isCustom=false)"),
     mkWorld r [list_objects_call]) in
  run (DeleteObject.main plain_store "person" true) r = refused
  /\ run (DeleteObject.main plain_store "person" false) r = refused.
Proof.
  intros person r refused. split.
  - exact (proj1 (main_refuses_non_custom plain_store "person" true r person
                    (JStr "obj-7") (mkWorld r [list_objects_call])
                    eq_refl eq_refl eq_refl (or_introl eq_refl))).
  - exact (proj1 (main_refuses_non_custom plain_store "person" false r person
                    (JStr "obj-7") (mkWorld r [list_objects_call])
                    eq_refl eq_refl eq_refl (or_introl eq_refl))).
Defined.


(** C1 on the scenario of section 8: object [deal] with fields [name] and
    [amount], and an empty store.  The first run creates the object and
    the two fields; the second run succeeds and changes nothing.  The same
    for the columns of a small CSV file on the object created. *)
Lemma reconciliation_idempotent_witness :
  let first := run (ApplySchema.apply_schema plain_store deal_schema)
                 (Store.mkRemote [] []) in
  let second := run (ApplySchema.apply_schema plain_store deal_schema)
                  (server (snd first)) in
  let columns := Main.ensure_fields plain_store (fun _ => true) (JStr "id-0")
                   ["external_id"; "Deal Value"]
                   [("external_id", [SStr "ext-1"]); ("Deal Value", [SInt 3])] in
  let third := run columns (server (snd second)) in
  (fst first = OK tt
   /\ count is_create (calls (snd first)) = 3
   /\ fst second = OK tt
   /\ changes_nothing (ApplySchema.apply_schema plain_store deal_schema)
        (server (snd first)))
  /\ (fst third = OK tt
      /\ count is_create (calls (snd third)) = 2
      /\ changes_nothing columns (server (snd third))).
Proof.
  intros first second columns third.
  pose proof (reconciliation_idempotent Store.Keyed false counter_id
                (fun _ _ => None) (fun _ => true)) as [Schema Columns].
  split.
  - split; [reflexivity|]. split; [reflexivity|]. split; [reflexivity|].
    exact (proj1 (Schema deal_schema (Store.mkRemote [] []) (snd first) eq_refl)).
  - split; [reflexivity|]. split; [reflexivity|].
    exact (proj1 (Columns (JStr "id-0") ["external_id"; "Deal Value"]
                    [("external_id", [SStr "ext-1"]); ("Deal Value", [SInt 3])]
                    (server (snd second)) (snd third) eq_refl)).
Defined.

(* ================================================================= *)
(** * What a script may call *)

Section EmitsFacts.

Context {S : Type}.
Variable handle : request -> S -> response * S.
Variable P : request -> Prop.

Lemma emits_ret {A : Type} (a : A) : emits P (ret (S := S) a).
Proof. intro w. exists []. now rewrite app_nil_r. Qed.

Lemma emits_raise {A : Type} (e : exn) : emits P (raise (S := S) (A := A) e).
Proof. intro w. exists []. now rewrite app_nil_r. Qed.

Lemma emits_lift {A : Type} (r : result A) : emits P (lift (S := S) r).
Proof. intro w. exists []. now rewrite app_nil_r. Qed.

Lemma emits_bind {A B : Type} (m : M S A) (k : A -> M S B) :
  emits P m -> (forall a, emits P (k a)) -> emits P (bind m k).
Proof.
  intros Hm Hk w. unfold bind. destruct (Hm w) as [n1 [E1 F1]].
  destruct (m w) as [[a|e] w1]; simpl in E1.
  - destruct (Hk a w1) as [n2 [E2 F2]]. exists (n1 ++ n2).
    rewrite E2, E1, app_assoc. split; [reflexivity|]. now apply Forall_app.
  - exists n1. auto.
Qed.

Lemma emits_try {A : Type} (m handler : M S A) :
  emits P m -> emits P handler -> emits P (try_except_runtime m handler).
Proof.
  intros Hm Hh w. unfold try_except_runtime. destruct (Hm w) as [n1 [E1 F1]].
  destruct (m w) as [[a|e] w1]; simpl in E1; [exists n1; auto|].
  destruct (is_runtime_error e); [|exists n1; auto].
  destruct (Hh w1) as [n2 [E2 F2]]. exists (n1 ++ n2).
  rewrite E2, E1, app_assoc. split; [reflexivity|]. now apply Forall_app.
Qed.

Lemma emits_for_each {A : Type} (xs : list A) (body : A -> M S unit) :
  (forall x, emits P (body x)) -> emits P (for_each xs body).
Proof.
  intro Hb. induction xs as [|x xs IH]; cbn [for_each].
  - apply emits_ret.
  - apply emits_bind; auto.
Qed.

Lemma emits_http m p q b :
  P (mkRequest m p q b) -> emits P (http handle m p q b).
Proof.
  intros H w. exists [mkRequest m p q b]. split; [apply http_calls | auto].
Qed.

End EmitsFacts.

Ltac emits_step :=
  first
    [ apply emits_ret | apply emits_raise | apply emits_lift
    | apply emits_for_each; intro
    | apply emits_try
    | apply emits_bind; [|intro]
    | match goal with
      | |- emits _ (if ?b then _ else _) => destruct b
      | |- emits _ (match ?x with _ => _ end) => destruct x
      end ].

(* ================================================================= *)
(** * Finding an object by name *)

(** X6. The lookup loop shared by [find_object] (main.py,
    delete_twenty_object.py) and [find_object_by_singular]: the result is
    the first object of the listing whose [nameSingular] equals the name,
    [None] when no object has it; an object without [get] met before that
    raises. *)
Theorem first_named_first (name : json) (os : list json) :
  match first_named name os with
  | OK o =>
      (o = JNull /\ Forall (fun x => named name x = OK false) os)
      \/ (exists before after,
             os = before ++ o :: after
             /\ named name o = OK true
             /\ Forall (fun x => named name x = OK false) before)
  | Raise e =>
      exists before x after,
        os = before ++ x :: after
        /\ named name x = Raise e
        /\ Forall (fun x => named name x = OK false) before
  end.
Proof.
  induction os as [|x os IH]; simpl.
  - left. auto.
  - unfold rbind.
    destruct (Py.get x "nameSingular" JNull) as [v|e] eqn:G.
    + destruct (Py.eq v name) eqn:E.
      * right. exists [], os. repeat split; [|constructor].
        unfold named. now rewrite G, <- E.
      * assert (Hx : named name x = OK false)
          by (unfold named; now rewrite G, <- E).
        destruct (first_named name os) as [o|e].
        -- destruct IH as [[-> F]|[before [after [-> [N F]]]]].
           ++ left. split; [reflexivity | now constructor].
           ++ right. exists (x :: before), after.
              repeat split; [assumption | now constructor].
        -- destruct IH as [before [y [after [-> [N F]]]]].
           exists (x :: before), y, after.
           repeat split; [assumption | now constructor].
    + exists [], x, os. repeat split; [|constructor].
      unfold named. now rewrite G.
Qed.


(* ================================================================= *)
(** * The lifecycle guard, all cases *)

Section GuardFacts.

Context {S : Type}.
Variable handle : request -> S -> response * S.


(** X15. An object that does not resolve: the guard ends well, having only
    listed the objects. *)
Theorem main_absent_noop (name : string) (hard : bool) (s : S) (obj : json)
    (w1 : world S) :
  run (DeleteObject.find_object handle name) s = (OK obj, w1) ->
  Py.truthy obj = false ->
  run (DeleteObject.main handle name hard) s = (OK tt, w1)
  /\ calls w1 = [list_objects_call].
Proof.
  unfold run. intros F T. split.
  - unfold DeleteObject.main. rewrite (bind_step _ _ _ _ _ F), T. reflexivity.
  - apply find_object_calls in F. exact F.
Qed.

End GuardFacts.

(* ================================================================= *)
(** * The schema reconciler only reads and creates *)

Section AppendOnlyFacts.

Context {S : Type}.
Variable handle : request -> S -> response * S.

Lemma emits_find_object_by_singular (name : json) :
  emits reads_or_creates_metadata (ApplySchema.find_object_by_singular handle name).
Proof.
  unfold ApplySchema.find_object_by_singular, ApplySchema.list_objects.
  repeat emits_step. apply emits_http. split; simpl; auto.
Qed.

Lemma emits_create_object (obj : json) :
  emits reads_or_creates_metadata (ApplySchema.create_object handle obj).
Proof.
  unfold ApplySchema.create_object.
  repeat emits_step. apply emits_http. split; simpl; auto.
Qed.

Lemma emits_list_fields (oid : json) :
  emits reads_or_creates_metadata (ApplySchema.list_fields handle oid).
Proof.
  unfold ApplySchema.list_fields.
  repeat emits_step. apply emits_http. split; simpl; auto.
Qed.

Lemma emits_post_field (p : dict) :
  emits reads_or_creates_metadata (ApplySchema.post_field handle p).
Proof. apply emits_http. split; simpl; auto. Qed.

Lemma emits_create_field (oid f : json) :
  emits reads_or_creates_metadata (ApplySchema.create_field handle oid f).
Proof.
  unfold ApplySchema.create_field.
  repeat first [apply emits_post_field | emits_step].
Qed.

Lemma emits_apply_schema_field (oid : json) (names : list json) (f : json) :
  emits reads_or_creates_metadata
    (ApplySchema.apply_schema_field handle oid names f).
Proof.
  unfold ApplySchema.apply_schema_field.
  repeat first [apply emits_create_field | emits_step].
Qed.

Lemma emits_apply_schema_object (obj : json) :
  emits reads_or_creates_metadata (ApplySchema.apply_schema_object handle obj).
Proof.
  unfold ApplySchema.apply_schema_object.
  repeat first [ apply emits_apply_schema_field
               | apply emits_find_object_by_singular
               | apply emits_create_object
               | apply emits_list_fields
               | emits_step ].
Qed.

(** X10. Whatever the schema and whatever the gateway answers, [apply_schema]
    issues only [GET] and [POST] calls on the metadata endpoints: it never
    updates or deletes an object or a field, and never touches records. *)
Theorem apply_schema_append_only (schema : json) (s : S) :
  Forall reads_or_creates_metadata
    (calls (snd (run (ApplySchema.apply_schema handle schema) s)))
  /\ count is_update (calls (snd (run (ApplySchema.apply_schema handle schema) s))) = 0
  /\ count is_delete (calls (snd (run (ApplySchema.apply_schema handle schema) s))) = 0.
Proof.
  assert (E : emits reads_or_creates_metadata (ApplySchema.apply_schema handle schema)).
  { unfold ApplySchema.apply_schema.
    repeat first [apply emits_apply_schema_object | emits_step]. }
  destruct (E (mkWorld s [])) as [new [Hc Hf]]. simpl in Hc.
  unfold run. rewrite Hc. split; [exact Hf|].
  unfold count. clear Hc.
  induction Hf as [|c l [[Hm|Hm] _] _ [IH1 IH2]]; [auto| |];
    unfold is_update, is_delete in *; simpl; rewrite Hm; auto.
Qed.


End AppendOnlyFacts.

(* ================================================================= *)
(** * Record upsert, all cases *)

Section UpsertShape.

Context {S : Type}.
Variable handle : request -> S -> response * S.



End UpsertShape.

(* ================================================================= *)
(** * The fields the CSV bootstrap creates *)

Lemma slugify_returns_slug (s r : string) :
  Main.slugify s = OK r -> well_formed_slug r = true.
Proof.
  rewrite slugify_core.
  pose proof (slug_core_chars s) as Hchars.
  pose proof (slug_core_no_double s) as Hdouble.
  pose proof (TextFacts.starts_with_strip Text.is_underscore
                (Text.re_sub_runs Text.is_underscore false
                   (Text.re_sub_runs Main.not_slug_char false
                      (Text.lower (Text.strip Text.is_space (Text.of_string s))))))
    as Hhead.
  pose proof (TextFacts.ends_with_strip Text.is_underscore
                (Text.re_sub_runs Text.is_underscore false
                   (Text.re_sub_runs Main.not_slug_char false
                      (Text.lower (Text.strip Text.is_space (Text.of_string s))))))
    as Hlast.
  fold (slug_core s) in Hhead, Hlast.
  destruct (slug_core s) as [|c cs] eqn:E; [discriminate|].
  destruct (Text.is_digit c) eqn:Hd; intro H;
    [ replace r with (Text.to_string ("f"%char :: "_"%char :: c :: cs))
        by congruence
    | replace r with (Text.to_string (c :: cs)) by congruence ];
    unfold well_formed_slug; rewrite TextFacts.of_to_string.
  - rewrite !TextFacts.ends_with_cons, Hlast.
    change (forallb Text.slug_char ("f"%char :: "_"%char :: c :: cs))
      with (forallb Text.slug_char (c :: cs)).
    change (Text.no_double_underscore ("f"%char :: "_"%char :: c :: cs))
      with (negb (Text.is_underscore c) && Text.no_double_underscore (c :: cs)).
    rewrite Hchars, Hdouble, (TextFacts.digit_not_underscore c Hd). reflexivity.
  - rewrite Hchars, Hdouble, Hhead, Hlast.
    cbn [Text.starts_with]. rewrite Hd. reflexivity.
Qed.



Section BootstrapCalls.

Context {S : Type}.
Variable handle : request -> S -> response * S.
Variable float_is_integer : scalar -> bool.




End BootstrapCalls.

(* ================================================================= *)
(** * What a successful run leaves in the store *)

Lemma first_named_found (name : json) (os : list json) (o : json) :
  first_named name os = OK o -> Py.truthy o = true ->
  In o os /\ named name o = OK true.
Proof.
  induction os as [|x os IH]; simpl; intros H T.
  - injection H as <-. discriminate.
  - unfold rbind in H.
    destruct (Py.get x "nameSingular" JNull) as [v|] eqn:G; [|discriminate].
    destruct (Py.eq v name) eqn:E.
    + injection H as <-. split; [now left|].
      unfold named. now rewrite G, <- E.
    + destruct (IH H T) as [Hin Hn]. auto.
Qed.

Lemma field_settled_present (r : Store.remote) (oid f : json) :
  field_settled oid (Store.fields r) f -> field_present r oid f.
Proof.
  intros [fname [fcamel [Hn [Hc [_ H]]]]].
  destruct H as [[st [Hin [Ho E]]]|[_ [st [Hin [Ho E]]]]];
    exists fname, fcamel, st; repeat split; auto.
Qed.

Lemma object_settled_present (r : Store.remote) (obj : json) :
  object_settled r obj -> object_present r obj.
Proof.
  intros [ns [existing [oid [owned [names [declared [fs
            [Hns [Hfind [Ht [Hid [_ [_ [Hd [Hi Hf]]]]]]]]]]]]]]].
  destruct (first_named_found _ _ _ Hfind Ht) as [Hin Hnamed].
  exists ns, existing, oid, declared, fs. repeat split; try assumption.
  eapply Forall_impl; [|exact Hf]. intro f. apply field_settled_present.
Qed.

Section EstablishFacts.

Variable shape : Store.listing_shape.
Variable honours_filter : bool.
Variable new_id : Store.remote -> json.
Variable faults : request -> Store.remote -> option Store.fault.

Let h := Store.handle shape honours_filter new_id faults.

(** X13. After a run of [apply_schema] that succeeds, whatever the store's
    listing shape, identifiers and refusals: every declared object is in
    the store under its [nameSingular] and carries an identifier, every
    declared field is among the fields of that object under its declared
    name or its camel-style form, and what the store held before is still
    there, in place. *)
Theorem apply_schema_establishes (schema : json) (r0 : Store.remote)
    (w1 : world Store.remote) :
  run (ApplySchema.apply_schema h schema) r0 = (OK tt, w1) ->
  exists first others,
    Py.get schema "objects" (JList []) = OK (JList (first :: others))
    /\ Forall (object_present (server w1)) (first :: others)
    /\ later r0 (server w1).
Proof.
  unfold run, ApplySchema.apply_schema. intro H.
  destruct (Py.get schema "objects" (JList [])) as [objects|]; [|discriminate].
  cbn [lift bind] in H.
  destruct objects as [a|[|o os]|d]; try discriminate.
  apply objects_loop in H. destruct H as [L Hs].
  exists o, os. repeat split; [|exact L].
  eapply Forall_impl; [|exact Hs]. intro obj. apply object_settled_present.
Qed.

End EstablishFacts.

(** The end-to-end scenario of section 8, on an empty store. *)
Lemma apply_schema_establishes_witness :
  let out := run (ApplySchema.apply_schema plain_store deal_schema)
               (Store.mkRemote [] []) in
  fst out = OK tt
  /\ exists first others,
      Py.get deal_schema "objects" (JList []) = OK (JList (first :: others))
      /\ Forall (object_present (server (snd out))) (first :: others)
      /\ later (Store.mkRemote [] []) (server (snd out)).
Proof.
  intro out. split; [reflexivity|].
  exact (apply_schema_establishes Store.Keyed false counter_id (fun _ _ => None)
           deal_schema (Store.mkRemote [] []) (snd out) eq_refl).
Defined.

(** The guard on a store that has no object of the name. *)
Lemma main_absent_noop_witness :
  run (DeleteObject.main plain_store "ghost" true) (Store.mkRemote [] [])
  = (OK tt, mkWorld (Store.mkRemote [] []) [list_objects_call])
  /\ calls (mkWorld (Store.mkRemote [] []) [list_objects_call])
     = [list_objects_call].
Proof.
  exact (main_absent_noop plain_store "ghost" true (Store.mkRemote [] []) JNull
           (mkWorld (Store.mkRemote [] []) [list_objects_call])
           eq_refl eq_refl).
Defined.

(* ================================================================= *)
(** * Camel-style names *)

Module CamelFacts.
Import Text.

Lemma alpha_case_not_underscore (c : ascii) :
  is_alpha c = true ->
  is_underscore (to_upper c) = false /\ is_underscore (to_lower c) = false.
Proof. TextFacts.by_cases_on_char c. Qed.

Lemma not_alpha_underscore (c : ascii) :
  is_underscore c = true -> is_alpha c = false.
Proof. TextFacts.by_cases_on_char c. Qed.

Lemma title_from_underscore (s : chars) :
  forall b, existsb is_underscore (title_from b s) = existsb is_underscore s.
Proof.
  induction s as [|c s IH]; intro b; simpl; [reflexivity|].
  destruct (is_alpha c) eqn:A; simpl; rewrite IH; [|reflexivity].
  destruct (alpha_case_not_underscore c A) as [U L].
  assert (is_underscore c = false) as ->.
  { destruct (is_underscore c) eqn:E; [|reflexivity].
    apply not_alpha_underscore in E. congruence. }
  now destruct b; rewrite ?U, ?L.
Qed.

Lemma split_parts (s : chars) :
  Forall (fun w => existsb is_underscore w = false) (split "_" s)
  /\ split "_" s <> [].
Proof.
  induction s as [|c s [IH NE]]; simpl.
  - split; [repeat constructor | discriminate].
  - fold (is_underscore c). destruct (is_underscore c) eqn:E.
    + split; [constructor; [reflexivity | assumption] | discriminate].
    + destruct (split "_" s) as [|w ws]; [contradiction|].
      inversion IH as [|? ? Hw Hws]; subst.
      split; [|discriminate]. constructor; [|assumption].
      simpl. now rewrite E, Hw.
Qed.

Lemma split_whole (s : chars) :
  existsb is_underscore s = false -> split "_" s = [s].
Proof.
  induction s as [|c s IH]; simpl; [reflexivity|].
  fold (is_underscore c). destruct (is_underscore c); simpl; [discriminate|].
  intro H. now rewrite (IH H).
Qed.

Lemma concat_titles (ws : list chars) :
  Forall (fun w => existsb is_underscore w = false) ws ->
  existsb is_underscore (List.concat (map title ws)) = false.
Proof.
  induction 1 as [|w ws Hw _ IH]; simpl; [reflexivity|].
  rewrite existsb_app, IH. unfold title. now rewrite title_from_underscore, Hw.
Qed.

Lemma snake_to_camel_clean (s : string) :
  has_underscore (of_string (ApplySchema.snake_to_camel s)) = false.
Proof.
  unfold ApplySchema.snake_to_camel, has_underscore.
  destruct (split_parts (of_string s)) as [F NE].
  destruct (split "_" (of_string s)) as [|w ws]; [contradiction|].
  inversion F as [|? ? Hw Hws]; subst.
  rewrite TextFacts.of_to_string, existsb_app, Hw. now apply concat_titles.
Qed.

Lemma snake_to_camel_fixed (s : string) :
  has_underscore (of_string s) = false -> ApplySchema.snake_to_camel s = s.
Proof.
  unfold ApplySchema.snake_to_camel, has_underscore. intro H.
  rewrite (split_whole _ H). simpl. rewrite app_nil_r.
  apply TextFacts.to_of_string.
Qed.

End CamelFacts.

(** X7. [snake_to_camel] always returns a name without underscore, and leaves
    such a name as it is: converting twice is converting once. *)
Theorem snake_to_camel_normal_form (s : string) :
  Text.has_underscore (Text.of_string (ApplySchema.snake_to_camel s)) = false
  /\ ApplySchema.snake_to_camel (ApplySchema.snake_to_camel s)
     = ApplySchema.snake_to_camel s.
Proof.
  split; [apply CamelFacts.snake_to_camel_clean|].
  apply CamelFacts.snake_to_camel_fixed, CamelFacts.snake_to_camel_clean.
Qed.

Lemma canonical_name_clean (s : string) :
  Text.has_underscore (Text.of_string (canonical_name s)) = false.
Proof.
  unfold canonical_name.
  destruct (Text.has_underscore (Text.of_string s)) eqn:E;
    [apply CamelFacts.snake_to_camel_clean | exact E].
Qed.

(* ================================================================= *)
(** * What a field payload carries *)

Lemma lookup_app_none (k : string) (d e : dict) :
  Py.lookup k d = None -> Py.lookup k (d ++ e) = Py.lookup k e.
Proof.
  induction d as [|[k' x] d IH]; simpl; [reflexivity|].
  destruct (k' =? k); [discriminate | assumption].
Qed.

Lemma lookup_without_same (key : string) (d : dict) :
  Py.lookup key (Py.without key d) = None.
Proof.
  unfold Py.without. induction d as [|[k v] d IH]; simpl; [reflexivity|].
  destruct (k =? key) eqn:E; simpl; [assumption | now rewrite E].
Qed.

(** X8. Whenever a payload can be built for a declaration whose name is a
    string: every tier that may be posted carries the same type, owning
    object, name and label as the minimal one; the name posted is the
    camel-style form of the declared name and has no underscore; and the
    tier without icon has no icon. *)
Theorem payload_tiers_required (oid : json) (d : dict) (s : string) (ty : json) :
  Py.lookup "name" d = Some (JStr s) ->
  Py.lookup "type" d = Some ty ->
  exists payload minimal,
    ApplySchema.full_payload oid (JDict d) = OK payload
    /\ ApplySchema.minimal_payload oid (JDict d) = OK minimal
    /\ (forall tier key,
           In tier (payload_tiers payload minimal) -> In key required_keys ->
           Py.lookup key tier = Py.lookup key minimal)
    /\ Py.lookup "name" minimal = Some (JStr (canonical_name s))
    /\ Text.has_underscore (Text.of_string (canonical_name s)) = false
    /\ Py.lookup "icon" (Py.without "icon" payload) = None.
Proof.
  intros Hn Ht.
  destruct (full_payload_str oid d s ty Hn Ht) as [payload [Hfull [Hname _]]].
  destruct (full_payload_minimal _ _ _ Hfull) as [minimal [d' [Hmin [Hd Hp]]]].
  injection Hd as <-.
  exists payload, minimal. split; [exact Hfull|]. split; [exact Hmin|].
  assert (Hreq : forall key, In key required_keys ->
                             exists v, Py.lookup key minimal = Some v
                                       /\ (("icon" =? key) = false)).
  { unfold ApplySchema.minimal_payload in Hmin.
    cbn [Py.getitem Py.get] in Hmin. rewrite Hn, Ht in Hmin. cbn [rbind] in Hmin.
    rewrite camel_if_underscore_str in Hmin. cbn [rbind] in Hmin.
    injection Hmin as <-.
    intros key Hk. unfold required_keys in Hk. simpl in Hk.
    repeat (destruct Hk as [<-|Hk]; [eexists; split; reflexivity|]).
    contradiction. }
  split.
  { intros tier key Htier Hkey. destruct (Hreq key Hkey) as [v [Hv Hi]].
    assert (Hfullk : Py.lookup key payload = Some v).
    { rewrite Hp. now apply lookup_app_some. }
    unfold payload_tiers in Htier.
    destruct (Py.has_key "icon" payload); simpl in Htier;
      repeat (destruct Htier as [<-|Htier]; [|]); try contradiction;
      rewrite ?lookup_without by exact Hi; congruence. }
  split.
  { destruct (Hreq "name") as [v [Hv _]]; [simpl; auto|].
    rewrite Hp in Hname. rewrite (lookup_app_some _ _ _ _ Hv) in Hname.
    congruence. }
  split; [apply canonical_name_clean | apply lookup_without_same].
Qed.

Lemma payload_tiers_required_witness :
  let d := [("name", JStr "deal_value"); ("type", JStr "NUMBER");
            ("icon", JStr "IconCoin")] in
  exists payload minimal,
    ApplySchema.full_payload (JStr "obj-1") (JDict d) = OK payload
    /\ ApplySchema.minimal_payload (JStr "obj-1") (JDict d) = OK minimal
    /\ (forall tier key,
           In tier (payload_tiers payload minimal) -> In key required_keys ->
           Py.lookup key tier = Py.lookup key minimal)
    /\ Py.lookup "name" minimal = Some (JStr (canonical_name "deal_value"))
    /\ Text.has_underscore (Text.of_string (canonical_name "deal_value")) = false
    /\ Py.lookup "icon" (Py.without "icon" payload) = None.
Proof.
  exact (payload_tiers_required (JStr "obj-1")
           [("name", JStr "deal_value"); ("type", JStr "NUMBER");
            ("icon", JStr "IconCoin")]
           "deal_value" (JStr "NUMBER") eq_refl eq_refl).
Defined.

Lemma entry_when_truthy_lookup (key k : string) (d : dict) (v : json) :
  Py.lookup k (ApplySchema.entry_when_truthy key d) = Some v ->
  k = key /\ Py.lookup key d = Some v /\ Py.truthy v = true.
Proof.
  unfold ApplySchema.entry_when_truthy.
  destruct (Py.lookup key d) as [x|]; [|discriminate].
  destruct (Py.truthy x) eqn:T; [|discriminate].
  simpl. destruct (key =? k) eqn:E; [|discriminate].
  apply String.eqb_eq in E. intros [= <-]. auto.
Qed.

Lemma lookup_app (k : string) (d e : dict) :
  Py.lookup k (d ++ e)
  = match Py.lookup k d with Some v => Some v | None => Py.lookup k e end.
Proof.
  induction d as [|[k' x] d IH]; simpl; [reflexivity|].
  now destruct (k' =? k).
Qed.

Lemma nullable_entry_lookup (k : string) (d : dict) (v : json) :
  Py.lookup k (match Py.lookup "isNullable" d with
               | Some x => [("isNullable", x)]
               | None => []
               end) = Some v ->
  k = "isNullable".
Proof.
  destruct (Py.lookup "isNullable" d); cbn [Py.lookup]; [|discriminate].
  destruct ("isNullable" =? k) eqn:E; [|discriminate].
  apply String.eqb_eq in E. auto.
Qed.

Lemma default_entry_lookup (k : string) (d : dict) (v : json) :
  Py.lookup k (match Py.lookup "defaultValue" d with
               | Some x => if Py.is_none x then [] else [("defaultValue", x)]
               | None => []
               end) = Some v ->
  k = "defaultValue"
  /\ Py.lookup "defaultValue" d = Some v /\ Py.is_none v = false.
Proof.
  destruct (Py.lookup "defaultValue" d) as [x|]; [|discriminate].
  destruct (Py.is_none x) eqn:N; [discriminate|]. cbn [Py.lookup].
  destruct ("defaultValue" =? k) eqn:E; [|discriminate].
  apply String.eqb_eq in E. intros [= <-]. auto.
Qed.

(** Where a key of the optional entries comes from. *)
Lemma optional_entries_lookup (k : string) (d : dict) (v : json) :
  Py.lookup k (ApplySchema.optional_entries d) = Some v ->
  (In k truthy_only_keys /\ Py.lookup k d = Some v /\ Py.truthy v = true)
  \/ k = "isNullable"
  \/ (k = "defaultValue"
      /\ Py.lookup "defaultValue" d = Some v /\ Py.is_none v = false).
Proof.
  unfold ApplySchema.optional_entries. rewrite !lookup_app.
  repeat match goal with
         | |- match Py.lookup k ?seg with _ => _ end = Some v -> _ =>
             let E := fresh "E" in
             destruct (Py.lookup k seg) eqn:E;
             [ intro Hv; injection Hv as Hv; subst;
               first
                 [ apply entry_when_truthy_lookup in E;
                   destruct E as [-> E]; left;
                   split; [simpl; auto 6 | exact E]
                 | apply nullable_entry_lookup in E; auto
                 | apply default_entry_lookup in E; auto ]
             | ]
         end.
  intro Hlast. apply entry_when_truthy_lookup in Hlast.
  destruct Hlast as [-> Hlast]. left. split; [simpl; auto 6 | exact Hlast].
Qed.

(** X9. An optional attribute is sent only when the declaration gives it a
    meaningful value: a description, icon, settings or options entry of a
    payload is the declared one and is truthy; a default value sent is the
    declared one and is not [None]. *)
Theorem full_payload_optional (oid : json) (d : dict) (s : string) (ty : json) :
  Py.lookup "name" d = Some (JStr s) ->
  Py.lookup "type" d = Some ty ->
  exists payload,
    ApplySchema.full_payload oid (JDict d) = OK payload
    /\ (forall key v,
           In key truthy_only_keys -> Py.lookup key payload = Some v ->
           Py.lookup key d = Some v /\ Py.truthy v = true)
    /\ (forall v,
           Py.lookup "defaultValue" payload = Some v ->
           Py.lookup "defaultValue" d = Some v /\ Py.is_none v = false).
Proof.
  intros Hn Ht.
  destruct (full_payload_str oid d s ty Hn Ht) as [payload [Hfull _]].
  destruct (full_payload_minimal _ _ _ Hfull) as [minimal [d' [Hmin [Hd Hp]]]].
  injection Hd as <-. exists payload. split; [exact Hfull|].
  unfold ApplySchema.minimal_payload in Hmin.
  cbn [Py.getitem Py.get] in Hmin. rewrite Hn, Ht in Hmin. cbn [rbind] in Hmin.
  rewrite camel_if_underscore_str in Hmin. cbn [rbind] in Hmin.
  injection Hmin as <-. subst payload.
  split.
  - intros key v Hk H. rewrite lookup_app in H.
    unfold truthy_only_keys in Hk. simpl in Hk.
    repeat (destruct Hk as [<-|Hk];
            [simpl in H; apply optional_entries_lookup in H;
             destruct H as [[_ H]|[H|[H _]]];
             [exact H | discriminate | discriminate]|]).
    contradiction.
  - intros v H. rewrite lookup_app in H. simpl in H.
    apply optional_entries_lookup in H.
    destruct H as [[H _]|[H|[_ H]]]; [|discriminate|exact H].
    unfold truthy_only_keys in H. simpl in H.
    repeat (destruct H as [H|H]; [discriminate|]). contradiction.
Qed.

Lemma full_payload_optional_witness :
  let d := [("name", JStr "amount"); ("type", JStr "NUMBER");
            ("description", JStr ""); ("defaultValue", JNull);
            ("icon", JStr "IconCoin")] in
  exists payload,
    ApplySchema.full_payload (JStr "obj-1") (JDict d) = OK payload
    /\ (forall key v,
           In key truthy_only_keys -> Py.lookup key payload = Some v ->
           Py.lookup key d = Some v /\ Py.truthy v = true)
    /\ (forall v,
           Py.lookup "defaultValue" payload = Some v ->
           Py.lookup "defaultValue" d = Some v /\ Py.is_none v = false).
Proof.
  exact (full_payload_optional (JStr "obj-1")
           [("name", JStr "amount"); ("type", JStr "NUMBER");
            ("description", JStr ""); ("defaultValue", JNull);
            ("icon", JStr "IconCoin")]
           "amount" (JStr "NUMBER") eq_refl eq_refl).
Defined.

(* ================================================================= *)
(** * Slugs of slugs *)

Module SlugFacts.
Import Text.

Lemma slug_char_plain (c : ascii) :
  slug_char c = true ->
  is_space c = false /\ to_lower c = c
  /\ Main.not_slug_char c = is_underscore c.
Proof. TextFacts.by_cases_on_char c. Qed.

Lemma underscore_char (c : ascii) : is_underscore c = true -> c = "_"%char.
Proof. unfold is_underscore. apply Ascii.eqb_eq. Qed.

Lemma lstrip_fixed (p : ascii -> bool) (s : chars) :
  starts_with p s = false -> lstrip p s = s.
Proof. destruct s as [|c s]; simpl; [reflexivity|]. now intros ->. Qed.

Lemma rstrip_fixed (p : ascii -> bool) (s : chars) :
  ends_with p s = false -> rstrip p s = s.
Proof.
  unfold ends_with. induction s as [|c s IH]; simpl; [reflexivity|].
  intro H. destruct s as [|d s].
  - simpl in *. now rewrite H.
  - assert (Hd : starts_with p (rev (d :: s)) = false).
    { simpl in *. destruct (rev s ++ [d]) as [|x r] eqn:E; [|exact H].
      destruct (rev s); discriminate. }
    rewrite (IH Hd). reflexivity.
Qed.

Lemma strip_fixed (p : ascii -> bool) (s : chars) :
  starts_with p s = false -> ends_with p s = false -> strip p s = s.
Proof.
  intros H1 H2. unfold strip. rewrite (lstrip_fixed p s H1).
  now apply rstrip_fixed.
Qed.

Lemma starts_with_weaker (p q : ascii -> bool) (s : chars) :
  (forall c, q c = true -> p c = false) ->
  forallb q s = true -> starts_with p s = false.
Proof.
  intros Hq. destruct s as [|c s]; simpl; [reflexivity|].
  intro H. apply andb_true_iff in H. destruct H as [Hc _]. auto.
Qed.

Lemma forallb_rev {A : Type} (q : A -> bool) (s : list A) :
  forallb q (rev s) = forallb q s.
Proof.
  induction s as [|c s IH]; simpl; [reflexivity|].
  rewrite forallb_app, IH. simpl. rewrite andb_true_r. apply andb_comm.
Qed.

Lemma lower_fixed (s : chars) : forallb slug_char s = true -> lower s = s.
Proof.
  unfold lower. induction s as [|c s IH]; simpl; [reflexivity|].
  intro H. apply andb_true_iff in H. destruct H as [Hc Hs].
  destruct (slug_char_plain c Hc) as [_ [-> _]]. now rewrite IH.
Qed.

(** Replacing runs leaves a text alone when the class is the underscore
    on that text and no two underscores are adjacent. *)
Lemma re_sub_runs_fixed (p : ascii -> bool) (s : chars) :
  forallb (fun c => Bool.eqb (p c) (is_underscore c)) s = true ->
  no_double_underscore s = true ->
  forall b, (b = true -> starts_with is_underscore s = false) ->
            re_sub_runs p b s = s.
Proof.
  induction s as [|c s IH]; intros Hp Hd b Hb; simpl; [reflexivity|].
  simpl in Hp, Hd. apply andb_true_iff in Hp. destruct Hp as [Hc Hs].
  apply andb_true_iff in Hd. destruct Hd as [Hadj Hd].
  apply Bool.eqb_prop in Hc. rewrite Hc.
  destruct (is_underscore c) eqn:U.
  - destruct b; [specialize (Hb eq_refl); simpl in Hb; congruence|].
    rewrite (underscore_char c U). f_equal.
    apply IH; try assumption. intros _.
    destruct s as [|d s]; [reflexivity|]. simpl in *.
    now destruct (is_underscore d).
  - f_equal. apply IH; try assumption. discriminate.
Qed.

Lemma slugify_slug (r : string) :
  well_formed_slug r = true -> Main.slugify r = OK r.
Proof.
  unfold well_formed_slug. cbv zeta. intro H.
  repeat (apply andb_true_iff in H; destruct H as [H ?]).
  match goal with
  | Hc : forallb slug_char _ = true |- _ => rename Hc into Hchars
  end.
  repeat match goal with
         | Hn : negb _ = true |- _ => apply negb_true_iff in Hn
         end.
  assert (Hsp : strip is_space (of_string r) = of_string r).
  { apply strip_fixed.
    - apply starts_with_weaker with (q := slug_char); [|assumption].
      intros c Hc. now destruct (slug_char_plain c Hc).
    - unfold ends_with. apply starts_with_weaker with (q := slug_char).
      + intros c Hc. now destruct (slug_char_plain c Hc).
      + now rewrite forallb_rev. }
  unfold Main.slugify. rewrite Hsp, (lower_fixed _ Hchars).
  rewrite (re_sub_runs_fixed Main.not_slug_char) by
      first [ assumption | discriminate
            | apply forallb_forall; intros c Hc;
              rewrite forallb_forall in Hchars;
              destruct (slug_char_plain c (Hchars c Hc)) as [_ [_ ->]];
              apply Bool.eqb_reflx ].
  rewrite (re_sub_runs_fixed is_underscore) by
      first [ assumption | discriminate
            | apply forallb_forall; intros c Hc; apply Bool.eqb_reflx ].
  rewrite strip_fixed by assumption.
  destruct (of_string r) as [|c cs] eqn:E; [discriminate|].
  match goal with
  | Hd : starts_with is_digit (c :: cs) = false |- _ => simpl in Hd; rewrite Hd
  end.
  rewrite <- E. unfold to_string, of_string.
  now rewrite string_of_list_ascii_of_string.
Qed.

Lemma lstrip_map (p : ascii -> bool) (f : ascii -> ascii) (s : chars) :
  (forall c, p (f c) = p c) -> lstrip p (map f s) = map f (lstrip p s).
Proof.
  intro H. induction s as [|c s IH]; simpl; [reflexivity|].
  rewrite H. now destruct (p c).
Qed.

Lemma rstrip_map (p : ascii -> bool) (f : ascii -> ascii) (s : chars) :
  (forall c, p (f c) = p c) -> rstrip p (map f s) = map f (rstrip p s).
Proof.
  intro H. induction s as [|c s IH]; simpl; [reflexivity|].
  rewrite IH, H. destruct (rstrip p s); simpl; [now destruct (p c)|reflexivity].
Qed.

Lemma to_lower_space (c : ascii) : is_space (to_lower c) = is_space c.
Proof. TextFacts.by_cases_on_char c. Qed.

Lemma to_lower_twice (c : ascii) : to_lower (to_lower c) = to_lower c.
Proof. TextFacts.by_cases_on_char c. Qed.

Lemma lower_strip_lower (s : chars) :
  lower (strip is_space (lower s)) = lower (strip is_space s).
Proof.
  unfold strip, lower.
  rewrite lstrip_map, rstrip_map by apply to_lower_space.
  rewrite map_map. apply map_ext. apply to_lower_twice.
Qed.

End SlugFacts.

(** X1. A slug is its own slug: what [slugify] returns, [slugify] returns
    again unchanged, so slugifying the names of a file twice, as
    [ensure_fields] and the renaming of the columns do, names the same
    fields. *)
Theorem slugify_idempotent (s r : string) :
  Main.slugify s = OK r -> Main.slugify r = OK r.
Proof.
  intro H. apply SlugFacts.slugify_slug. eapply slugify_returns_slug. eassumption.
Qed.

Lemma slugify_idempotent_witness :
  Main.slugify "  2nd Deal-Value (USD) " = OK "f_2nd_deal_value_usd"
  /\ Main.slugify "f_2nd_deal_value_usd" = OK "f_2nd_deal_value_usd".
Proof.
  split; [reflexivity|].
  exact (slugify_idempotent "  2nd Deal-Value (USD) " "f_2nd_deal_value_usd"
           eq_refl).
Defined.

(** X2. [slugify] does not see letter case: a text and its lower-case form
    have the same slug, or both have none. *)
Theorem slugify_ignores_case (s : string) :
  Main.slugify (lowercase s) = Main.slugify s.
Proof.
  unfold Main.slugify, lowercase.
  rewrite TextFacts.of_to_string, SlugFacts.lower_strip_lower. reflexivity.
Qed.

(* ================================================================= *)
(** * Type inference sees a bag of values *)

Lemma forallb_permutation {A : Type} (p : A -> bool) (l l' : list A) :
  Permutation l l' -> forallb p l = forallb p l'.
Proof.
  induction 1 as [| x l l' _ IH | x y l | l l' l'' _ IH1 _ IH2]; simpl.
  - reflexivity.
  - now rewrite IH.
  - now rewrite !andb_assoc, (andb_comm (p y)).
  - congruence.
Qed.

Lemma dropna_twice (vs : list scalar) : Main.dropna (Main.dropna vs) = Main.dropna vs.
Proof.
  unfold Main.dropna. induction vs as [|v vs IH]; simpl; [reflexivity|].
  destruct (negb (Main.is_missing v)) eqn:E; simpl; [rewrite E|]; now rewrite ?IH.
Qed.

(** X3. The inferred type depends only on which values are present and how
    often: two columns whose non-missing values are the same up to order
    get the same type, whatever their names, their missing cells and the
    order of their rows. *)
Theorem infer_twenty_type_bag (float_is_integer : scalar -> bool)
    (c1 c2 : Main.series) :
  Permutation (Main.dropna (Main.values c1)) (Main.dropna (Main.values c2)) ->
  Main.infer_twenty_type float_is_integer c1
  = Main.infer_twenty_type float_is_integer c2.
Proof.
  intro P. rewrite !infer_twenty_type_values. unfold inferred_by_priority.
  destruct (Main.dropna (Main.values c1)) as [|a l] eqn:E1;
    destruct (Main.dropna (Main.values c2)) as [|b l'] eqn:E2.
  - reflexivity.
  - apply Permutation_nil in P. discriminate.
  - apply Permutation_sym, Permutation_nil in P. discriminate.
  - rewrite (forallb_permutation Main.in_vocabulary _ _ P).
    now rewrite (forallb_permutation Main.float_ok _ _ P).
Qed.

Lemma infer_twenty_type_bag_witness :
  Main.infer_twenty_type (fun _ => true)
    (Main.mkSeries (Some "a") [SStr "1"; SNone; SStr "yes"])
  = Main.infer_twenty_type (fun _ => true)
      (Main.mkSeries (Some "b") [SStr "yes"; SStr "1"; SFloat "nan"]).
Proof.
  apply (infer_twenty_type_bag (fun _ => true)
           (Main.mkSeries (Some "a") [SStr "1"; SNone; SStr "yes"])
           (Main.mkSeries (Some "b") [SStr "yes"; SStr "1"; SFloat "nan"])).
  simpl. apply perm_swap.
Defined.

(* ================================================================= *)
(** * An object that does not show after its creation *)

Section NotVisibleFacts.

Context {S : Type}.
Variable handle : request -> S -> response * S.

Lemma find_object_by_singular_calls (name : json) (w : world S) r w1 :
  ApplySchema.find_object_by_singular handle name w = (r, w1) ->
  calls w1 = calls w ++ [list_objects_call].
Proof.
  unfold ApplySchema.find_object_by_singular, ApplySchema.list_objects, bind, lift.
  destruct (http handle GET MetadataObjects [] None w) as [[res|e] w0] eqn:E;
    apply http_calls_eq in E; fold list_objects_call in E.
  - destruct (objects_payload res) as [objs|e]; [|now intros [= _ <-]].
    destruct (Py.iter objs) as [os|e]; now intros [= _ <-].
  - now intros [= _ <-].
Qed.

Lemma create_object_calls (obj : json) (w : world S) v w1 :
  ApplySchema.create_object handle obj w = (OK v, w1) ->
  exists payload, calls w1 = calls w ++ [create_object_call payload].
Proof.
  unfold ApplySchema.create_object. cbn [lift bind].
  destruct (Py.getitem obj "nameSingular"); [|discriminate].
  destruct (Py.getitem obj "namePlural"); [|discriminate].
  destruct (Py.getitem obj "labelSingular"); [|discriminate].
  destruct (Py.getitem obj "labelPlural"); [|discriminate].
  destruct (Py.get obj "description" (JStr "")); [|discriminate].
  destruct (Py.get obj "icon" (JStr "")); [|discriminate].
  intro H. apply http_calls_eq in H. eexists. exact H.
Qed.

(** X12. The reconciler trusts the listing, not the answer to the create call:
    when an object is not listed, is created without error and is still
    not listed, the run stops with [RuntimeError] after exactly three
    calls, list, create, list, and no field is listed or created. *)
Theorem apply_schema_object_not_visible (obj name : json) (s : S)
    (found created again : json) (w1 w2 w3 : world S) :
  Py.getitem obj "nameSingular" = OK name ->
  run (ApplySchema.find_object_by_singular handle name) s = (OK found, w1) ->
  Py.truthy found = false ->
  ApplySchema.create_object handle obj w1 = (OK created, w2) ->
  ApplySchema.find_object_by_singular handle name w2 = (OK again, w3) ->
  Py.truthy again = false ->
  run (ApplySchema.apply_schema_object handle obj) s
  = (Raise (RuntimeError "Object not found after create"), w3)
  /\ exists payload,
      calls w3 = [list_objects_call; create_object_call payload; list_objects_call].
Proof.
  unfold run. intros Hn F1 T1 C F2 T2. split.
  - unfold ApplySchema.apply_schema_object. rewrite Hn. cbn [lift bind].
    rewrite (bind_step _ _ _ _ _ F1), T1. cbn [negb].
    unfold bind at 1. unfold bind at 1. rewrite C.
    unfold bind at 1. rewrite F2, T2. reflexivity.
  - apply find_object_by_singular_calls in F1, F2.
    destruct (create_object_calls _ _ _ _ C) as [payload Hc].
    exists payload. rewrite F2, Hc, F1. reflexivity.
Qed.

End NotVisibleFacts.

(** A gateway that accepts every call and always lists nothing. *)
Lemma apply_schema_object_not_visible_witness :
  let gateway := canned (Reply 200 (Json (JDict [("data", JList [])]))) in
  let obj := JDict [("nameSingular", JStr "deal"); ("namePlural", JStr "deals");
                    ("labelSingular", JStr "Deal"); ("labelPlural", JStr "Deals")] in
  fst (run (ApplySchema.apply_schema_object gateway obj) tt)
  = Raise (RuntimeError "Object not found after create")
  /\ List.length (calls (snd (run (ApplySchema.apply_schema_object gateway obj) tt)))
     = 3.
Proof.
  intros gateway obj.
  pose proof (apply_schema_object_not_visible gateway obj (JStr "deal") tt
                JNull (JDict [("data", JList [])]) JNull
                (snd (run (ApplySchema.find_object_by_singular gateway (JStr "deal")) tt))
                (snd (ApplySchema.create_object gateway obj
                        (snd (run (ApplySchema.find_object_by_singular gateway
                                     (JStr "deal")) tt))))
                (snd (run (ApplySchema.apply_schema_object gateway obj) tt))
                eq_refl eq_refl eq_refl eq_refl eq_refl eq_refl) as [H [payload Hc]].
  split; [now rewrite H | now rewrite Hc].
Defined.

